(** * Windowed throughput-rate engine of the numaflow daemon

    A shallow embedding of [pkg/daemon/server/service/rater/helper.go]
    ([UpdateCount], [CalculateRate], [calculatePartitionDelta],
    [findStartIndex], [findEndIndex]) together with the two collaborators
    the helper works on: the bounded queue and the timestamped bucket.

    Conventions of the embedding.
    - Go [int64] values are integers of [Z]; the one arithmetic operation
      the helper applies to them, subtraction, wraps around as in Go
      ([Int64.sub]).
    - Go [float64] values are IEEE 754 binary64 numbers, [spec_float] at
      precision 53 and maximal exponent 1024, with round-to-nearest-even
      operations ([Float64]).
    - A Go map that is iterated while floats are accumulated is an
      association list: Go leaves the iteration order unspecified and float
      addition is not associative, so the order of the list stands for the
      order the run time picked; statements on one call quantify over all
      lists.  Go picks the order anew for every loop: statements that
      compare two calls are on [CalculateRate_may], the values a call may
      return under some order of iteration over each delta snapshot.
    - An index expression [s[i]] that Go checks at run time is a lookup in
      the [option] monad; [None] is the run-time panic.
    - The queue stores pointers to buckets.  [UpdateCount] is its only
      writer and appends freshly allocated buckets, so in the histories it
      builds an entry is never nil and no two entries alias: there the
      history is a list of bucket values that is updated in place at an
      index.  The rate query on an arbitrary slice of pointers, where an
      entry may be nil and reading through it panics, is module [Ptr]; on
      slices without nil entries the two agree
      ([Ptr_CalculateRate_exit_pointers]).
    - [time.Now().Truncate(10s).Unix()] is the parameter [now].
    - Logging has no effect on the results and is left out. *)

From Stdlib Require Import ZArith Lia Bool Floats.SpecFloat.
From stdpp Require Import base option numbers list strings.

Local Open Scope Z_scope.

(** ** Machine integers *)

Module Int64.

Definition modulus : Z := 2 ^ 64.
Definition min_signed : Z := - 2 ^ 63.
Definition max_signed : Z := 2 ^ 63 - 1.

(** Reduction of a mathematical integer to its two's complement value. *)
Definition wrap (z : Z) : Z := (z - min_signed) mod modulus + min_signed.

(** Go's [a - b] on [int64]. *)
Definition sub (a b : Z) : Z := wrap (a - b).

Definition in_range (z : Z) : Prop := min_signed <= z <= max_signed.

End Int64.

(** ** binary64 floats *)

Module Float64.

Definition float64 : Type := spec_float.

Definition prec : Z := 53.
Definition emax : Z := 1024.

Definition zero : float64 := S754_zero false.

Definition add : float64 -> float64 -> float64 := SFadd prec emax.
Definition sub : float64 -> float64 -> float64 := SFsub prec emax.
Definition div : float64 -> float64 -> float64 := SFdiv prec emax.

(** Go's [==], [<] and [<=] on floats (all false on NaN). *)
Definition eqb : float64 -> float64 -> bool := SFeqb.
Definition ltb : float64 -> float64 -> bool := SFltb.
Definition leb : float64 -> float64 -> bool := SFleb.

(** Go's conversion [float64(z)] of an integer. *)
Definition of_int (z : Z) : float64 := binary_normalize prec emax z 0 false.

Definition is_nan (x : float64) : bool :=
  match x with S754_nan => true | _ => false end.

(** [0 <= x] in Go's sense: not NaN, and positive or a zero. *)
Definition nonneg (x : float64) : Prop := leb zero x = true.

End Float64.

Abbreviation float64 := Float64.float64.

(** ** Go maps with string keys, in iteration order *)

Definition gomap (V : Type) : Type := list (string * V).

(** [m[k]] with the zero value [d] for a missing key. *)
Fixpoint map_get {V : Type} (d : V) (m : gomap V) (k : string) : V :=
  match m with
  | [] => d
  | (k', v) :: m' => if String.eqb k' k then v else map_get d m' k
  end.

(** [m[k] = v]: overwrite the entry of [k], or add one. *)
Fixpoint map_set {V : Type} (m : gomap V) (k : string) (v : V) : gomap V :=
  match m with
  | [] => [(k, v)]
  | (k', v') :: m' =>
      if String.eqb k' k then (k, v) :: m' else (k', v') :: map_set m' k v
  end.

(** Counts per pod, per partition. *)
Definition PodPartitionCounts : Type := gomap (gomap float64).

(** ** PodReadCount *)

(** Modelled from the spec: the type [PodReadCount] is declared in a file
    that is not part of the sources at hand.  Section 6 describes a report
    as the cumulative read counts of one pod, per partition. *)
Record PodReadCount : Type := mkPodReadCount {
  podName : string;
  partitionReadCounts : gomap float64
}.

(** ** TimestampedCounts *)

(** Modelled from the spec: the type [TimestampedCounts] and its methods are
    declared in a file that is not part of the sources at hand.  The fields
    follow section 3 (timestamp, counts, delta snapshot, window-closed flag);
    the delta snapshot is keyed by pod and then by partition, which is how
    [calculatePartitionDelta] reads it. *)
Record TimestampedCounts : Type := mkTimestampedCounts {
  timestamp : Z;
  podPartitionCount : PodPartitionCounts;
  podPartitionDelta : PodPartitionCounts;
  isWindowClosed : bool
}.

(** Modelled from the spec: the missing constructor [NewTimestampedCounts];
    a fresh bucket is open and holds no counts (section 3, lifecycle). *)
Definition NewTimestampedCounts (t : Z) : TimestampedCounts :=
  {| timestamp := t;
     podPartitionCount := [];
     podPartitionDelta := [];
     isWindowClosed := false |}.

(** Modelled from the spec: the method [Update] is missing from the sources.
    By section 4.2 the report is merged into the counts, keyed by pod and
    partition; the latest cumulative count wins. *)
Definition Update (r : PodReadCount) (tc : TimestampedCounts) : TimestampedCounts :=
  {| timestamp := timestamp tc;
     podPartitionCount :=
       foldl (fun counts '(partition, c) =>
                map_set counts (podName r)
                        (map_set (map_get [] counts (podName r)) partition c))
             (podPartitionCount tc) (partitionReadCounts r);
     podPartitionDelta := podPartitionDelta tc;
     isWindowClosed := isWindowClosed tc |}.

(** Modelled from the spec: the delta of one pod and partition, part of the
    missing method [CloseWindow].  By section 4.2 a pod whose cumulative
    count fell below its previous value restarted, and its delta is the count
    itself (a fresh baseline of zero). *)
Definition podDelta (count prevCount : float64) : float64 :=
  if Float64.ltb count prevCount then count else Float64.sub count prevCount.

(** Modelled from the spec: the count of a pod and partition in the baseline
    bucket, part of the missing method [CloseWindow]; [nil] is a baseline of
    zero (section 4.2), and so is a pod or partition the baseline does not
    know. *)
Definition prevCount (prev : option TimestampedCounts) (pod partition : string) : float64 :=
  match prev with
  | None => Float64.zero
  | Some p => map_get Float64.zero (map_get [] (podPartitionCount p) pod) partition
  end.

(** Modelled from the spec: the method [CloseWindow] is missing from the
    sources.  By section 4.2 the window is closed exactly once and a later
    call is a no-op; the delta of every pod and partition is taken against
    the baseline bucket. *)
Definition CloseWindow (prev : option TimestampedCounts) (tc : TimestampedCounts)
  : TimestampedCounts :=
  if isWindowClosed tc then tc
  else
    {| timestamp := timestamp tc;
       podPartitionCount := podPartitionCount tc;
       podPartitionDelta :=
         map (fun '(pod, counts) =>
                (pod, map (fun '(partition, c) =>
                             (partition, podDelta c (prevCount prev pod partition)))
                          counts))
             (podPartitionCount tc);
       isWindowClosed := true |}.

(** Modelled from the spec: the missing method [IsWindowClosed], a pure
    predicate (section 4.2). *)
Definition IsWindowClosed (tc : TimestampedCounts) : bool := isWindowClosed tc.

(** Modelled from the spec: the missing method [PodDeltaCountSnapshot], which
    returns the delta snapshot (section 4.2). *)
Definition PodDeltaCountSnapshot (tc : TimestampedCounts) : PodPartitionCounts :=
  podPartitionDelta tc.

(** ** OverflowQueue *)

(** Modelled from the spec: the generic queue [OverflowQueue] is declared in
    a file that is not part of the sources at hand.  By section 4.1 it has a
    capacity fixed at construction; [Append] adds at the tail and drops the
    oldest entry when the capacity is exceeded; [Items] is the ordered
    content. *)
Record OverflowQueue (T : Type) : Type := mkOverflowQueue {
  elements : list T;
  size : nat
}.
Arguments mkOverflowQueue {T} _ _.
Arguments elements {T} _.
Arguments size {T} _.

(** Modelled from the spec: the missing method [Items], the ordered content
    of the queue (section 4.1). *)
Definition Items {T : Type} (q : OverflowQueue T) : list T := elements q.

(** Modelled from the spec: the missing method [Append].  By section 4.1 it
    adds to the tail; if the number of stored items then exceeds the
    capacity, the oldest one is dropped. *)
Definition Append {T : Type} (q : OverflowQueue T) (x : T) : OverflowQueue T :=
  let l := elements q ++ [x] in
  {| elements := if (size q <? length l)%nat then drop 1 l else l;
     size := size q |}.

(** The buckets of the queue after writes through the pointers it holds. *)
Definition withItems {T : Type} (q : OverflowQueue T) (l : list T) : OverflowQueue T :=
  {| elements := l; size := size q |}.

(** ** The rater helper *)

Definition IndexNotFound : Z := -1.

(** [s[i]] for a Go [int] index: out of range is a panic. *)
Definition index {A : Type} (s : list A) (i : Z) : option A :=
  if i <? 0 then None else s !! Z.to_nat i.

Abbreviation History := (list TimestampedCounts).
Abbreviation Queue := (OverflowQueue TimestampedCounts).

(** The [switch] of [UpdateCount] that closes the window of the most recent
    bucket; the result is the history after the write through the pointer. *)
Definition closeMostRecent (items : History) : option History :=
  match length items with
  | 0%nat => Some items
  | 1%nat =>
      first ← items !! 0%nat;
      Some (<[0%nat := CloseWindow None first]> items)
  | S (S m) =>
      last ← items !! S m;
      prev ← items !! m;
      Some (<[S m := CloseWindow (Some prev) last]> items)
  end.

(** [UpdateCount] updates the count of processed messages for a pod at a
    given time. *)
Definition UpdateCount (q : Queue) (time : Z) (partitionReadCounts : PodReadCount)
  : option Queue :=
  let items := Items q in
  match list_find (fun i => timestamp i = time) items with
  | Some (k, i) => Some (withItems q (<[k := Update partitionReadCounts i]> items))
  | None =>
      let tc := Update partitionReadCounts (NewTimestampedCounts time) in
      items' ← closeMostRecent items;
      Some (Append (withItems q items') tc)
  end.

(** [calculatePartitionDelta] sums the delta of the partition over the pods
    of a bucket. *)
Definition calculatePartitionDelta (c1 : TimestampedCounts) (partitionName : string)
  : float64 :=
  let tc1 := PodDeltaCountSnapshot c1 in
  foldl (fun delta '(_, partitionCount) =>
           Float64.add delta (map_get Float64.zero partitionCount partitionName))
        Float64.zero tc1.

(** The loop of [findStartIndex]: [k] is [i + 1] for the loop variable [i],
    which runs from [n - 2] down to [0]. *)
Fixpoint findStartIndex_loop (now lookbackSeconds : Z) (counts : History)
    (k : nat) (startIndex : Z) : option Z :=
  match k with
  | O => Some startIndex
  | S i =>
      c ← counts !! i;
      if (Int64.sub now (timestamp c) <=? lookbackSeconds) && IsWindowClosed c
      then findStartIndex_loop now lookbackSeconds counts i (Z.of_nat i)
      else Some startIndex
  end.

(** [findStartIndex] finds the index of the first element in the queue that
    is within the lookback seconds. *)
Definition findStartIndex (now lookbackSeconds : Z) (counts : History) : option Z :=
  let n := Z.of_nat (length counts) in
  if n <? 2 then Some IndexNotFound
  else
    c ← index counts (n - 2);
    if lookbackSeconds <? Int64.sub now (timestamp c) then Some IndexNotFound
    else findStartIndex_loop now lookbackSeconds counts (Z.to_nat (n - 1)) (n - 2).

(** The loop of [findEndIndex]: [k] is [i + 1] for the loop variable [i],
    which runs from [len(counts) - 1] down to [0]. *)
Fixpoint findEndIndex_loop (counts : History) (k : nat) : option Z :=
  match k with
  | O => Some IndexNotFound
  | S i =>
      c ← counts !! i;
      if IsWindowClosed c then Some (Z.of_nat i) else findEndIndex_loop counts i
  end.

Definition findEndIndex (counts : History) : option Z :=
  findEndIndex_loop counts (length counts).

(** The summation loop of [CalculateRate]: [i] is the loop variable and
    [fuel] the number of iterations left, [endIndex - i]. *)
Fixpoint sumDeltas (counts : History) (partitionName : string)
    (fuel : nat) (i : Z) (delta : float64) : option float64 :=
  match fuel with
  | O => Some delta
  | S fuel' =>
      c ← index counts (i + 1);
      sumDeltas counts partitionName fuel' (i + 1)
        (if IsWindowClosed c
         then Float64.add delta (calculatePartitionDelta c partitionName)
         else delta)
  end.

(** The [return] statement a call of [CalculateRate] leaves through, with the
    values it has computed by then. *)
Inductive RateExit : Type :=
  | ExitTooFewCounts
  | ExitIndexNotFound (startIndex endIndex : Z)
  | ExitZeroTimeDiff (startIndex endIndex : Z)
  | ExitQuotient (startIndex endIndex : Z) (delta : float64) (timeDiff : Z).

(** The value returned at each exit; only the last one divides. *)
Definition exitValue (e : RateExit) : float64 :=
  match e with
  | ExitTooFewCounts => Float64.zero
  | ExitIndexNotFound _ _ => Float64.zero
  | ExitZeroTimeDiff _ _ => Float64.zero
  | ExitQuotient _ _ delta timeDiff => Float64.div delta (Float64.of_int timeDiff)
  end.

Definition CalculateRate_exit (q : Queue) (now lookbackSeconds : Z)
    (partitionName : string) : option RateExit :=
  let counts := Items q in
  if (length counts <=? 1)%nat then Some ExitTooFewCounts
  else
    startIndex ← findStartIndex now lookbackSeconds counts;
    endIndex ← findEndIndex counts;
    if (startIndex =? IndexNotFound) || (endIndex =? IndexNotFound)
    then Some (ExitIndexNotFound startIndex endIndex)
    else
      cEnd ← index counts endIndex;
      cStart ← index counts startIndex;
      let timeDiff := Int64.sub (timestamp cEnd) (timestamp cStart) in
      if timeDiff =? 0 then Some (ExitZeroTimeDiff startIndex endIndex)
      else
        delta ← sumDeltas counts partitionName
                  (Z.to_nat (endIndex - startIndex)) startIndex Float64.zero;
        Some (ExitQuotient startIndex endIndex delta timeDiff).

(** [CalculateRate] calculates the rate of the vertex partition in the last
    lookback seconds. *)
Definition CalculateRate (q : Queue) (now lookbackSeconds : Z)
    (partitionName vertexName : string) : option float64 :=
  exitValue <$> CalculateRate_exit q now lookbackSeconds partitionName.

(** ** The end-to-end example of the spec *)

Definition report (pod partition : string) (c : float64) : PodReadCount :=
  {| podName := pod; partitionReadCounts := [(partition, c)] |}.

Definition emptyQueue (capacity : nat) : Queue :=
  {| elements := []; size := capacity |}.

(** Three reports of one pod for one partition, ingested in order. *)
Definition ingest3 (capacity : nat) (pod partition : string)
    (t0 t1 t2 : Z) (c0 c1 c2 : float64) : option Queue :=
  q1 ← UpdateCount (emptyQueue capacity) t0 (report pod partition c0);
  q2 ← UpdateCount q1 t1 (report pod partition c1);
  UpdateCount q2 t2 (report pod partition c2).

Definition f5 : float64 := Float64.of_int 5.
Definition f15 : float64 := Float64.of_int 15.
Definition f30 : float64 := Float64.of_int 30.
Definition exampleQueue : option Queue :=
  ingest3 100 "pod-0" "p1" 100 110 120 f5 f15 f30.

(** The history the example leaves in the queue: the buckets of 100 and 110
    are closed, with deltas 5 and 10; the bucket of 120 is open. *)
Definition bucket100 : TimestampedCounts :=
  {| timestamp := 100;
     podPartitionCount := [("pod-0", [("p1", f5)])];
     podPartitionDelta := [("pod-0", [("p1", f5)])];
     isWindowClosed := true |}.

Definition bucket110 : TimestampedCounts :=
  {| timestamp := 110;
     podPartitionCount := [("pod-0", [("p1", f15)])];
     podPartitionDelta := [("pod-0", [("p1", Float64.of_int 10)])];
     isWindowClosed := true |}.

Definition bucket120 : TimestampedCounts :=
  {| timestamp := 120;
     podPartitionCount := [("pod-0", [("p1", f30)])];
     podPartitionDelta := [];
     isWindowClosed := false |}.

Definition threeBuckets : Queue :=
  {| elements := [bucket100; bucket110; bucket120]; size := 100 |}.

(** The queue after the first two reports of the example. *)
Definition twoBuckets : Queue :=
  {| elements := [bucket100;
                  Update (report "pod-0" "p1" f15) (NewTimestampedCounts 110)];
     size := 100 |}.

(** A history whose last two buckets are open. *)
Definition twoOpenAtEnd : Queue :=
  {| elements := [bucket100; NewTimestampedCounts 110; NewTimestampedCounts 120];
     size := 100 |}.

(** ** Notions the statements use *)

(** A bucket is within the lookback window when its age, [now - timestamp]
    as the helper computes it on [int64], is at most [lookbackSeconds]. *)
Definition withinLookback (now lookbackSeconds : Z) (c : TimestampedCounts) : Prop :=
  Int64.sub now (timestamp c) <= lookbackSeconds.

(** The condition under which the backward scan for the start index goes on. *)
Definition usable (now lookbackSeconds : Z) (c : TimestampedCounts) : Prop :=
  withinLookback now lookbackSeconds c /\ IsWindowClosed c = true.

(** The indices the exits after the index search have used. *)
Definition exitIndices (e : RateExit) : option (Z * Z) :=
  match e with
  | ExitTooFewCounts => None
  | ExitIndexNotFound s e => Some (s, e)
  | ExitZeroTimeDiff s e => Some (s, e)
  | ExitQuotient s e _ _ => Some (s, e)
  end.

(** [x] is a zero, an infinity or a finite number of sign [s]; not a NaN. *)
Definition hasSign (s : bool) (x : float64) : Prop :=
  match x with
  | S754_zero s' | S754_infinity s' | S754_finite s' _ _ => s' = s
  | S754_nan => False
  end.

(** The delta-snapshot values of a bucket for a partition, one per pod. *)
Definition podDeltaValues (c : TimestampedCounts) (partitionName : string)
  : list float64 :=
  (fun '(_, partitionCount) => map_get Float64.zero partitionCount partitionName)
    <$> PodDeltaCountSnapshot c.

(** A float sum, accumulated from 0 in the order of the list. *)
Definition fsum (l : list float64) : float64 := foldl Float64.add Float64.zero l.

(** The contribution of position [i] of the window to the delta: the pods'
    values of bucket [i + 1] when its window is closed, nothing otherwise. *)
Definition closedDeltaAt (counts : History) (partitionName : string) (i : Z)
  : option float64 :=
  c ← index counts (i + 1);
  if IsWindowClosed c then Some (fsum (podDeltaValues c partitionName)) else None.

(** Step 6 of the rate query as the spec words it: the sum over [i] from
    [startIndex] to [endIndex - 1] of the delta of bucket [i + 1], closed
    buckets only. *)
Definition closedDeltaSum (counts : History) (partitionName : string)
    (startIndex endIndex : Z) : float64 :=
  fsum (omap (closedDeltaAt counts partitionName)
             (seqZ startIndex (endIndex - startIndex))).

(** Every value of every delta snapshot of the history is at least 0. *)
Definition deltasNonneg (counts : History) : Prop :=
  Forall (fun b =>
            Forall (fun '(_, partitionCount) =>
                      Forall (fun '(_, v) => Float64.nonneg v) partitionCount)
                   (PodDeltaCountSnapshot b))
         counts.

(** The timestamps are not negative and do not decrease along the history,
    which is what the ingestion contract of section 6 asks of the caller. *)
Definition timestampsOrdered (counts : History) : Prop :=
  forall i j bi bj, (i <= j)%nat -> counts !! i = Some bi -> counts !! j = Some bj ->
    0 <= timestamp bi /\ timestamp bi <= timestamp bj /\
    timestamp bj <= Int64.max_signed.

(** The reports of the end-to-end example, the second one carrying a
    timestamp that is older than the first. *)
Definition outOfOrderQueue : option Queue :=
  ingest3 100 "pod-0" "p1" 110 100 120 f5 f15 f30.

(** Every bucket but the most recent one is closed. *)
Definition allButLastClosed (items : History) : Prop :=
  forall i b, (S i < length items)%nat -> items !! i = Some b ->
              IsWindowClosed b = true.

(** Two open buckets, ten seconds apart. *)
Definition twoOpenBuckets : History :=
  [NewTimestampedCounts 100; NewTimestampedCounts 110].

(** The partition is a key of no pod of the delta snapshot of the bucket. *)
Definition partitionUnknown (partitionName : string) (c : TimestampedCounts) : Prop :=
  Forall (fun '(_, partitionCount) =>
            Forall (fun '(k, _) => k <> partitionName) partitionCount)
         (PodDeltaCountSnapshot c).

(** What the rate query reads of a bucket: the timestamp, the window-closed
    flag and the delta snapshot. *)
Definition sameRateData (b b' : TimestampedCounts) : Prop :=
  timestamp b = timestamp b' /\
  IsWindowClosed b = IsWindowClosed b' /\
  PodDeltaCountSnapshot b = PodDeltaCountSnapshot b'.

(** The part of [CalculateRate] that follows the two index searches. *)
Definition rateAfterSearch (counts : History) (partitionName : string)
    (startIndex endIndex : Z) : option RateExit :=
  if (startIndex =? IndexNotFound) || (endIndex =? IndexNotFound)
  then Some (ExitIndexNotFound startIndex endIndex)
  else
    cEnd ← index counts endIndex;
    cStart ← index counts startIndex;
    let timeDiff := Int64.sub (timestamp cEnd) (timestamp cStart) in
    if timeDiff =? 0 then Some (ExitZeroTimeDiff startIndex endIndex)
    else
      delta ← sumDeltas counts partitionName
                (Z.to_nat (endIndex - startIndex)) startIndex Float64.zero;
      Some (ExitQuotient startIndex endIndex delta timeDiff).

(** Go's [a + b] on [int64]. *)
Definition add64 (a b : Z) : Z := Int64.wrap (a + b).

(** The bucket with its timestamp moved by [d] seconds. *)
Definition shiftBucket (d : Z) (b : TimestampedCounts) : TimestampedCounts :=
  {| timestamp := add64 (timestamp b) d;
     podPartitionCount := podPartitionCount b;
     podPartitionDelta := podPartitionDelta b;
     isWindowClosed := isWindowClosed b |}.

(** The queue with every timestamp moved by [d] seconds. *)
Definition shiftQueue (d : Z) (q : Queue) : Queue :=
  {| elements := shiftBucket d <$> elements q; size := size q |}.

(** Four reports of one pod for one partition, ingested in order. *)
Definition ingest4 (capacity : nat) (pod partition : string)
    (t0 t1 t2 t3 : Z) (c0 c1 c2 c3 : float64) : option Queue :=
  q3 ← ingest3 capacity pod partition t0 t1 t2 c0 c1 c2;
  UpdateCount q3 t3 (report pod partition c3).

(** ** The rate query on a slice of pointers *)

(** The history is a slice [[]*TimestampedCounts]: an entry is a pointer to
    a bucket, [Some b], or nil, [None].  The functions of this module are
    the code of the rate query on every such slice.  Reading the field
    [timestamp] or calling [IsWindowClosed] through a nil pointer is a
    run-time panic, [None], as an index out of range is; the summation loop
    tests its entry for nil before it calls a method on it.  On a slice
    without nil entries they are the functions above. *)
Module Ptr.

Abbreviation History := (list (option TimestampedCounts)).
Abbreviation Queue := (OverflowQueue (option TimestampedCounts)).

(** The loop of [findStartIndex]: [k] is [i + 1] for the loop variable
    [i]. *)
Fixpoint findStartIndex_loop (now lookbackSeconds : Z) (counts : History)
    (k : nat) (startIndex : Z) : option Z :=
  match k with
  | O => Some startIndex
  | S i =>
      p ← counts !! i;
      c ← p;
      if (Int64.sub now (timestamp c) <=? lookbackSeconds) && IsWindowClosed c
      then findStartIndex_loop now lookbackSeconds counts i (Z.of_nat i)
      else Some startIndex
  end.

Definition findStartIndex (now lookbackSeconds : Z) (counts : History) : option Z :=
  let n := Z.of_nat (length counts) in
  if n <? 2 then Some IndexNotFound
  else
    p ← index counts (n - 2);
    c ← p;
    if lookbackSeconds <? Int64.sub now (timestamp c) then Some IndexNotFound
    else findStartIndex_loop now lookbackSeconds counts (Z.to_nat (n - 1)) (n - 2).

(** The loop of [findEndIndex]: [k] is [i + 1] for the loop variable [i]. *)
Fixpoint findEndIndex_loop (counts : History) (k : nat) : option Z :=
  match k with
  | O => Some IndexNotFound
  | S i =>
      p ← counts !! i;
      c ← p;
      if IsWindowClosed c then Some (Z.of_nat i) else findEndIndex_loop counts i
  end.

Definition findEndIndex (counts : History) : option Z :=
  findEndIndex_loop counts (length counts).

(** The summation loop of [CalculateRate], with its test
    [counts[i+1] != nil && counts[i+1].IsWindowClosed()]. *)
Fixpoint sumDeltas (counts : History) (partitionName : string)
    (fuel : nat) (i : Z) (delta : float64) : option float64 :=
  match fuel with
  | O => Some delta
  | S fuel' =>
      p ← index counts (i + 1);
      sumDeltas counts partitionName fuel' (i + 1)
        (match p with
         | Some c =>
             if IsWindowClosed c
             then Float64.add delta (calculatePartitionDelta c partitionName)
             else delta
         | None => delta
         end)
  end.

Definition CalculateRate_exit (q : Queue) (now lookbackSeconds : Z)
    (partitionName : string) : option RateExit :=
  let counts := Items q in
  if (length counts <=? 1)%nat then Some ExitTooFewCounts
  else
    startIndex ← findStartIndex now lookbackSeconds counts;
    endIndex ← findEndIndex counts;
    if (startIndex =? IndexNotFound) || (endIndex =? IndexNotFound)
    then Some (ExitIndexNotFound startIndex endIndex)
    else
      pEnd ← index counts endIndex;
      cEnd ← pEnd;
      pStart ← index counts startIndex;
      cStart ← pStart;
      let timeDiff := Int64.sub (timestamp cEnd) (timestamp cStart) in
      if timeDiff =? 0 then Some (ExitZeroTimeDiff startIndex endIndex)
      else
        delta ← sumDeltas counts partitionName
                  (Z.to_nat (endIndex - startIndex)) startIndex Float64.zero;
        Some (ExitQuotient startIndex endIndex delta timeDiff).

Definition CalculateRate (q : Queue) (now lookbackSeconds : Z)
    (partitionName vertexName : string) : option float64 :=
  exitValue <$> CalculateRate_exit q now lookbackSeconds partitionName.

(** The queue of pointers to the buckets of a queue of buckets. *)
Definition pointers (q : OverflowQueue TimestampedCounts) : Queue :=
  {| elements := Some <$> elements q; size := size q |}.

End Ptr.

(** A history with a nil entry in the place of the bucket of 110. *)
Definition nilInHistory : Ptr.Queue :=
  {| elements := [Some bucket100; None; Some bucket120]; size := 100 |}.

(** ** The order of iteration over a map *)

(** Go draws the order in which a [range] loop visits a map anew for every
    loop, so two calls on the same bucket may add its floats in two orders.
    The list that stands for a map fixes one order; [rangeOrder m o] says
    that [o] is an order in which a loop may visit [m]. *)
Definition rangeOrder {V : Type} (m o : gomap V) : Prop := o ≡ₚ m.

(** The bucket as [calculatePartitionDelta] sees it when its loop visits the
    delta snapshot in the order [o]. *)
Definition visitedAs (o : PodPartitionCounts) (b : TimestampedCounts)
  : TimestampedCounts :=
  {| timestamp := timestamp b;
     podPartitionCount := podPartitionCount b;
     podPartitionDelta := o;
     isWindowClosed := isWindowClosed b |}.

(** A call of [CalculateRate] ranges at most once over the delta snapshot of
    each bucket; [orders] holds the order of the loop for each bucket of the
    history. *)
Definition CalculateRate_in (orders : list PodPartitionCounts) (q : Queue)
    (now lookbackSeconds : Z) (partitionName vertexName : string) : option float64 :=
  CalculateRate (withItems q (zip_with visitedAs orders (Items q)))
    now lookbackSeconds partitionName vertexName.

(** [rate] is a value the call may return: the value it returns for some
    choice of the orders of iteration. *)
Definition CalculateRate_may (q : Queue) (now lookbackSeconds : Z)
    (partitionName vertexName : string) (rate : float64) : Prop :=
  exists orders,
    Forall2 (fun b o => rangeOrder (PodDeltaCountSnapshot b) o) (Items q) orders /\
    CalculateRate_in orders q now lookbackSeconds partitionName vertexName = Some rate.

(** What the rate query reads of a bucket, the delta snapshot taken as a
    map: the order of its pods does not count. *)
Definition sameRateView (b b' : TimestampedCounts) : Prop :=
  timestamp b = timestamp b' /\
  IsWindowClosed b = IsWindowClosed b' /\
  PodDeltaCountSnapshot b ≡ₚ PodDeltaCountSnapshot b'.

(** The bucket of 110 with the deltas of three pods, and the same bucket
    with the pods in another order. *)
Definition bucket110pods : TimestampedCounts :=
  {| timestamp := 110;
     podPartitionCount := [];
     podPartitionDelta :=
       [("pod-0", [("p1", Float64.of_int 9007199254740992)]);
        ("pod-1", [("p1", Float64.of_int 1)]);
        ("pod-2", [("p1", Float64.of_int 1)])];
     isWindowClosed := true |}.

Definition bucket110pods' : TimestampedCounts :=
  {| timestamp := 110;
     podPartitionCount := [];
     podPartitionDelta :=
       [("pod-1", [("p1", Float64.of_int 1)]);
        ("pod-2", [("p1", Float64.of_int 1)]);
        ("pod-0", [("p1", Float64.of_int 9007199254740992)])];
     isWindowClosed := true |}.

Definition threePods : Queue :=
  {| elements := [bucket100; bucket110pods; bucket120]; size := 100 |}.

Definition threePods' : Queue :=
  {| elements := [bucket100; bucket110pods'; bucket120]; size := 100 |}.

(** ** Integers in binary64 *)

(** The binary64 number that stands for an integer [n] with
    [0 < n < 2^53]: the mantissa is [n] shifted to 53 bits, and nothing is
    rounded away. *)
Definition exactInt (n : Z) : float64 :=
  S754_finite false (Z.to_pos (n * 2 ^ (53 - Zdigits2 n))) (Zdigits2 n - 53).

(** Counts beyond [2^53], where binary64 has no odd integers. *)
Definition bigCount0 : float64 := Float64.of_int 1.
Definition bigCount1 : float64 := Float64.of_int 9007199254740994.
Definition bigCount2 : float64 := Float64.of_int 9007199254740996.

(** ** Facts on machine integers *)

Lemma Int64_wrap_in_range (z : Z) : Int64.in_range (Int64.wrap z).
Proof.
  unfold Int64.in_range, Int64.wrap, Int64.max_signed, Int64.min_signed, Int64.modulus.
  pose proof (Z.mod_pos_bound (z - - 2 ^ 63) (2 ^ 64) ltac:(lia)). lia.
Qed.

Lemma Int64_wrap_id (z : Z) : Int64.in_range z -> Int64.wrap z = z.
Proof.
  unfold Int64.in_range, Int64.wrap, Int64.max_signed, Int64.min_signed, Int64.modulus.
  intros H. rewrite Z.mod_small; lia.
Qed.

Lemma Int64_sub_exact (a b : Z) : Int64.in_range (a - b) -> Int64.sub a b = a - b.
Proof. apply Int64_wrap_id. Qed.

Lemma Int64_sub_diag (a : Z) : Int64.sub a a = 0.
Proof. unfold Int64.sub. rewrite Z.sub_diag. reflexivity. Qed.

Lemma Int64_sub_in_range (a b : Z) : Int64.in_range (Int64.sub a b).
Proof. apply Int64_wrap_in_range. Qed.

(** On timestamps that are not negative the subtraction is exact. *)
Lemma Int64_sub_nonneg (a b : Z) :
  0 <= a <= Int64.max_signed -> 0 <= b <= Int64.max_signed ->
  Int64.sub a b = a - b.
Proof.
  intros Ha Hb. apply Int64_sub_exact.
  unfold Int64.in_range, Int64.max_signed, Int64.min_signed in *. lia.
Qed.

(** Where the age does not overflow, being within the lookback window is
    what it says: the timestamp is not before [now - lookbackSeconds]. *)
Lemma withinLookback_exact (now lookbackSeconds : Z) (c : TimestampedCounts) :
  Int64.in_range (now - timestamp c) ->
  withinLookback now lookbackSeconds c <-> now - lookbackSeconds <= timestamp c.
Proof.
  intros H. unfold withinLookback. rewrite Int64_sub_exact by exact H. lia.
Qed.

(** ** Facts on lookups *)

Lemma index_Some {A : Type} (s : list A) (i : Z) (x : A) :
  index s i = Some x <-> 0 <= i /\ s !! Z.to_nat i = Some x.
Proof.
  unfold index. destruct (Z.ltb_spec i 0); split; intros H'; try lia.
  - discriminate.
  - tauto.
  - tauto.
Qed.

Lemma index_of_nat {A : Type} (s : list A) (i : nat) :
  index s (Z.of_nat i) = s !! i.
Proof.
  unfold index. destruct (Z.ltb_spec (Z.of_nat i) 0); [lia|].
  by rewrite Nat2Z.id.
Qed.

Lemma index_lt {A : Type} (s : list A) (i : Z) :
  0 <= i < Z.of_nat (length s) -> exists x, index s i = Some x.
Proof.
  intros H. destruct (lookup_lt_is_Some_2 s (Z.to_nat i)) as [x Hx]; [lia|].
  exists x. apply index_Some. split; [lia|exact Hx].
Qed.

(** ** The backward scans *)

Lemma findEndIndex_loop_spec (counts : History) (k : nat) :
  (k <= length counts)%nat ->
  exists e, findEndIndex_loop counts k = Some e /\
    ((e = IndexNotFound /\
      forall j b, (j < k)%nat -> counts !! j = Some b -> IsWindowClosed b = false)
     \/
     (exists i b, e = Z.of_nat i /\ (i < k)%nat /\ counts !! i = Some b /\
        IsWindowClosed b = true /\
        forall j b', (i < j < k)%nat -> counts !! j = Some b' ->
                     IsWindowClosed b' = false)).
Proof.
  induction k as [|i IH]; intros Hk; simpl.
  - exists IndexNotFound. split; [reflexivity|]. left. split; [reflexivity|]. lia.
  - destruct (lookup_lt_is_Some_2 counts i ltac:(lia)) as [c Hc].
    rewrite Hc. simpl. destruct (IsWindowClosed c) eqn:Hclosed.
    + exists (Z.of_nat i). split; [reflexivity|]. right.
      exists i, c. repeat split; try done; try lia.
    + destruct (IH ltac:(lia)) as (e & He & Hspec). exists e. split; [exact He|].
      destruct Hspec as [[-> Hopen] | (i' & b & -> & Hi' & Hb & Hbc & Hafter)].
      * left. split; [reflexivity|]. intros j b Hj Hb.
        destruct (decide (j = i)) as [->|Hne]; [congruence|].
        apply (Hopen j b); [lia|exact Hb].
      * right. exists i', b. repeat split; try done; try lia.
        intros j b' Hj Hb'.
        destruct (decide (j = i)) as [->|Hne]; [congruence|].
        apply (Hafter j b'); [lia|exact Hb'].
Qed.

Lemma findEndIndex_total (counts : History) :
  exists e, findEndIndex counts = Some e /\ -1 <= e < Z.of_nat (length counts).
Proof.
  destruct (findEndIndex_loop_spec counts (length counts) ltac:(lia))
    as (e & He & Hspec).
  exists e. split; [exact He|].
  destruct Hspec as [[-> _] | (i & b & -> & Hi & _)]; unfold IndexNotFound; lia.
Qed.

Lemma findStartIndex_loop_spec (now lookbackSeconds : Z) (counts : History)
    (k : nat) (s0 : Z) :
  (k <= length counts)%nat ->
  exists s, findStartIndex_loop now lookbackSeconds counts k s0 = Some s /\
    ((s = s0 /\
      (k = 0%nat \/
       exists i b, k = S i /\ counts !! i = Some b /\
                   ~ usable now lookbackSeconds b))
     \/
     (exists i, s = Z.of_nat i /\ (i < k)%nat /\
        (forall j b, (i <= j < k)%nat -> counts !! j = Some b ->
                     usable now lookbackSeconds b) /\
        (i = 0%nat \/
         exists i' b, i = S i' /\ counts !! i' = Some b /\
                      ~ usable now lookbackSeconds b))).
Proof.
  revert s0. induction k as [|i IH]; intros s0 Hk; simpl.
  - exists s0. split; [reflexivity|]. left. split; [reflexivity|]. by left.
  - destruct (lookup_lt_is_Some_2 counts i ltac:(lia)) as [c Hc].
    rewrite Hc. simpl.
    destruct ((Int64.sub now (timestamp c) <=? lookbackSeconds) && IsWindowClosed c)
      eqn:Hok.
    + apply andb_true_iff in Hok as [Hage Hclosed]. apply Z.leb_le in Hage.
      assert (Hc_ok : usable now lookbackSeconds c) by (split; assumption).
      destruct (IH (Z.of_nat i) ltac:(lia)) as (s & Hs & Hspec).
      exists s. split; [exact Hs|]. right.
      destruct Hspec as [[-> Hstop] | (i' & -> & Hi' & Hall & Hstop)].
      * exists i. split_and!; try lia.
        -- intros j b Hj Hb. assert (j = i) as -> by lia. congruence.
        -- destruct Hstop as [-> | (i' & b & -> & Hb & Hnot)]; [by left|].
           right. by exists i', b.
      * exists i'. split_and!; try lia; [|exact Hstop].
        intros j b Hj Hb. destruct (decide (j = i)) as [->|Hne]; [congruence|].
        apply (Hall j b); [lia|exact Hb].
    + exists s0. split; [reflexivity|]. left. split; [reflexivity|]. right.
      exists i, c. split_and!; try done.
      intros [Hage Hclosed]. unfold withinLookback in Hage.
      apply Z.leb_le in Hage. rewrite Hage, Hclosed in Hok. discriminate.
Qed.

Lemma findStartIndex_short (now lookbackSeconds : Z) (counts : History) :
  (length counts < 2)%nat ->
  findStartIndex now lookbackSeconds counts = Some IndexNotFound.
Proof.
  intros H. unfold findStartIndex.
  destruct (Z.ltb_spec (Z.of_nat (length counts)) 2); [reflexivity|lia].
Qed.

(** [findStartIndex] on a history of two buckets or more, by cases on the age
    of the second-to-last bucket. *)
Lemma findStartIndex_unfold (now lookbackSeconds : Z) (counts : History)
    (c : TimestampedCounts) :
  (2 <= length counts)%nat ->
  counts !! (length counts - 2)%nat = Some c ->
  findStartIndex now lookbackSeconds counts =
    if lookbackSeconds <? Int64.sub now (timestamp c) then Some IndexNotFound
    else findStartIndex_loop now lookbackSeconds counts (length counts - 1)
           (Z.of_nat (length counts - 2)).
Proof.
  intros Hn Hc. unfold findStartIndex.
  destruct (Z.ltb_spec (Z.of_nat (length counts)) 2); [lia|].
  replace (Z.of_nat (length counts) - 2) with (Z.of_nat (length counts - 2)) by lia.
  rewrite index_of_nat, Hc. simpl.
  replace (Z.to_nat (Z.of_nat (length counts) - 1)) with (length counts - 1)%nat by lia.
  reflexivity.
Qed.

Lemma findStartIndex_total (now lookbackSeconds : Z) (counts : History) :
  exists s, findStartIndex now lookbackSeconds counts = Some s /\
            -1 <= s < Z.of_nat (length counts).
Proof.
  destruct (decide (length counts < 2)%nat) as [Hshort|Hlong].
  - exists IndexNotFound. split; [by apply findStartIndex_short|].
    unfold IndexNotFound. lia.
  - destruct (lookup_lt_is_Some_2 counts (length counts - 2) ltac:(lia)) as [c Hc].
    rewrite (findStartIndex_unfold _ _ _ c) by (lia || done).
    destruct (lookbackSeconds <? Int64.sub now (timestamp c)).
    + exists IndexNotFound. split; [reflexivity|]. unfold IndexNotFound. lia.
    + destruct (findStartIndex_loop_spec now lookbackSeconds counts
                  (length counts - 1) (Z.of_nat (length counts - 2)) ltac:(lia))
        as (s & Hs & Hspec).
      exists s. split; [exact Hs|].
      destruct Hspec as [[-> _] | (i & -> & Hi & _)]; lia.
Qed.

(** ** Degenerate outcomes of [CalculateRate] *)

Section Degenerate.

Variables (q : Queue) (now lookbackSeconds : Z) (partitionName vertexName : string).

Local Abbreviation counts := (Items q).

(** C7 (zero-data floor): on a history of zero or one buckets
    [CalculateRate] returns the float 0, whatever the lookback window and
    the partition are.  The outcome is a regular return ([Some], no panic),
    and it is the rate 0 itself: the result type has no error component. *)
Theorem CalculateRate_too_few_counts :
  (length counts <= 1)%nat ->
  CalculateRate_exit q now lookbackSeconds partitionName = Some ExitTooFewCounts /\
  CalculateRate q now lookbackSeconds partitionName vertexName = Some Float64.zero.
Proof.
  intros H. unfold CalculateRate, CalculateRate_exit.
  destruct (Nat.leb_spec (length counts) 1); [done|lia].
Qed.

(** C5 (stale floor): on a history of two buckets or more, if the
    second-to-last bucket is older than the lookback window (its age
    [now - timestamp], computed on [int64] as the helper does, exceeds
    [lookbackSeconds]), then [CalculateRate] returns 0; nothing is assumed
    on the other buckets. *)
Theorem CalculateRate_stale (c : TimestampedCounts) :
  (2 <= length counts)%nat ->
  counts !! (length counts - 2)%nat = Some c ->
  ~ withinLookback now lookbackSeconds c ->
  findStartIndex now lookbackSeconds counts = Some IndexNotFound /\
  CalculateRate q now lookbackSeconds partitionName vertexName = Some Float64.zero.
Proof.
  intros Hn Hc Hold. unfold withinLookback in Hold.
  assert (Hstart : findStartIndex now lookbackSeconds counts = Some IndexNotFound).
  { rewrite (findStartIndex_unfold _ _ _ c Hn Hc).
    destruct (Z.ltb_spec lookbackSeconds (Int64.sub now (timestamp c))); [done|lia]. }
  split; [exact Hstart|].
  unfold CalculateRate, CalculateRate_exit.
  destruct (Nat.leb_spec (length counts) 1); [lia|].
  rewrite Hstart. simpl.
  destruct (findEndIndex_total counts) as (e & -> & _). reflexivity.
Qed.

End Degenerate.

(** ** The summation loop *)

Lemma foldl_partition_values (partitionName : string) (l : PodPartitionCounts)
    (acc : float64) :
  foldl (fun delta '(_, partitionCount) =>
           Float64.add delta (map_get Float64.zero partitionCount partitionName))
        acc l
  = foldl Float64.add acc
      ((fun '(_, partitionCount) =>
          map_get Float64.zero partitionCount partitionName) <$> l).
Proof.
  revert acc. induction l as [|[pod pc] l IH]; intros acc; [reflexivity|].
  cbn [foldl fmap list_fmap]. apply IH.
Qed.

Lemma calculatePartitionDelta_fsum (c : TimestampedCounts) (partitionName : string) :
  calculatePartitionDelta c partitionName = fsum (podDeltaValues c partitionName).
Proof. apply foldl_partition_values. Qed.

Lemma sumDeltas_spec (counts : History) (partitionName : string)
    (fuel : nat) (i : Z) (delta : float64) :
  0 <= i -> i + Z.of_nat fuel < Z.of_nat (length counts) ->
  sumDeltas counts partitionName fuel i delta =
    Some (foldl Float64.add delta
            (omap (closedDeltaAt counts partitionName) (seqZ i (Z.of_nat fuel)))).
Proof.
  revert i delta. induction fuel as [|fuel IH]; intros i delta Hi Hn; [done|].
  cbn [sumDeltas].
  destruct (index_lt counts (i + 1) ltac:(lia)) as [c Hc].
  rewrite Hc. cbn [mbind option_bind]. rewrite IH by lia.
  rewrite (seqZ_cons i) by lia.
  replace (Z.succ i) with (i + 1) by lia.
  replace (Z.pred (Z.of_nat (S fuel))) with (Z.of_nat fuel) by lia.
  cbn [omap list_omap]. unfold closedDeltaAt at 2. rewrite Hc. cbn [mbind option_bind].
  destruct (IsWindowClosed c); [|done].
  by rewrite calculatePartitionDelta_fsum.
Qed.

(** The exits of [CalculateRate], by cases on what the index searches find. *)
Lemma CalculateRate_exit_cases (q : Queue) (now lookbackSeconds : Z)
    (partitionName : string) :
  let counts := Items q in
  let exit := CalculateRate_exit q now lookbackSeconds partitionName in
  ((length counts <= 1)%nat /\ exit = Some ExitTooFewCounts)
  \/
  ((2 <= length counts)%nat /\
   exists s e,
     findStartIndex now lookbackSeconds counts = Some s /\
     findEndIndex counts = Some e /\
     -1 <= s < Z.of_nat (length counts) /\ -1 <= e < Z.of_nat (length counts) /\
     (((s = IndexNotFound \/ e = IndexNotFound) /\
       exit = Some (ExitIndexNotFound s e))
      \/
      (0 <= s /\ 0 <= e /\
       exists cs ce,
         index counts s = Some cs /\ index counts e = Some ce /\
         let timeDiff := Int64.sub (timestamp ce) (timestamp cs) in
         ((timeDiff = 0 /\ exit = Some (ExitZeroTimeDiff s e))
          \/
          (timeDiff <> 0 /\
           exit = Some (ExitQuotient s e
                          (closedDeltaSum counts partitionName s e) timeDiff)))))).
Proof.
  intros counts exit. subst exit. unfold CalculateRate_exit. fold counts.
  destruct (Nat.leb_spec (length counts) 1) as [Hshort|Hlong]; [by left|].
  right. split; [lia|].
  destruct (findStartIndex_total now lookbackSeconds counts) as (s & Hs & Hsr).
  destruct (findEndIndex_total counts) as (e & He & Her).
  exists s, e. rewrite Hs, He. cbn [mbind option_bind].
  split_and!; try done; try lia.
  unfold IndexNotFound.
  destruct (Z.eqb_spec s (-1)) as [->|Hsn]; [left; split; [by left|done]|].
  destruct (Z.eqb_spec e (-1)) as [->|Hen]; [left; split; [by right|done]|].
  right. cbn [orb]. split; [lia|]. split; [lia|].
  destruct (index_lt counts s ltac:(lia)) as [cs Hcs].
  destruct (index_lt counts e ltac:(lia)) as [ce Hce].
  exists cs, ce. rewrite Hcs, Hce. cbn [mbind option_bind].
  split_and!; try done. cbv zeta.
  destruct (Z.eqb_spec (Int64.sub (timestamp ce) (timestamp cs)) 0) as [Hz|Hnz];
    [by left|].
  right. split; [done|].
  destruct (Z.le_gt_cases e s) as [Hle|Hgt].
  - replace (Z.to_nat (e - s)) with 0%nat by lia. cbn [sumDeltas mbind option_bind].
    unfold closedDeltaSum. rewrite seqZ_nil by lia. done.
  - rewrite sumDeltas_spec by lia. cbn [mbind option_bind].
    unfold closedDeltaSum, fsum. by rewrite Z2Nat.id by lia.
Qed.

(** ** The rate on the summation path *)

Lemma CalculateRate_exit_quotient (q : Queue) (now lookbackSeconds : Z)
    (partitionName : string) (s e : Z) (cs ce : TimestampedCounts) :
  findStartIndex now lookbackSeconds (Items q) = Some s ->
  findEndIndex (Items q) = Some e ->
  s <> IndexNotFound -> e <> IndexNotFound ->
  index (Items q) s = Some cs -> index (Items q) e = Some ce ->
  Int64.sub (timestamp ce) (timestamp cs) <> 0 ->
  CalculateRate_exit q now lookbackSeconds partitionName =
    Some (ExitQuotient s e (closedDeltaSum (Items q) partitionName s e)
            (Int64.sub (timestamp ce) (timestamp cs))).
Proof.
  intros Hs He Hsn Hen Hcs Hce Hdiff.
  destruct (CalculateRate_exit_cases q now lookbackSeconds partitionName)
    as [[Hshort _] | (_ & s' & e' & Hs' & He' & _ & _ & Hexit)].
  - rewrite findStartIndex_short in Hs by lia. by simplify_eq.
  - rewrite Hs in Hs'. rewrite He in He'. simplify_eq.
    destruct Hexit as [[[?|?] _] | (_ & _ & cs' & ce' & Hcs' & Hce' & Hexit)]; [done..|].
    rewrite Hcs in Hcs'. rewrite Hce in Hce'. simplify_eq.
    cbv zeta in Hexit. by destruct Hexit as [[? _] | [_ ->]].
Qed.

(** C2: when [CalculateRate] reaches its summation step (both indices found,
    a time difference that is not 0), it returns the sum, over [i] from
    [startIndex] to [endIndex - 1] with bucket [i + 1] closed, of the per-pod
    delta-snapshot values of bucket [i + 1] for the partition, divided by the
    timestamp of the end bucket minus the timestamp of the start bucket; open
    buckets add nothing. *)
Theorem CalculateRate_quotient (q : Queue) (now lookbackSeconds : Z)
    (partitionName vertexName : string) (s e : Z) (cs ce : TimestampedCounts) :
  findStartIndex now lookbackSeconds (Items q) = Some s ->
  findEndIndex (Items q) = Some e ->
  s <> IndexNotFound -> e <> IndexNotFound ->
  index (Items q) s = Some cs -> index (Items q) e = Some ce ->
  Int64.sub (timestamp ce) (timestamp cs) <> 0 ->
  CalculateRate q now lookbackSeconds partitionName vertexName =
    Some (Float64.div (closedDeltaSum (Items q) partitionName s e)
            (Float64.of_int (Int64.sub (timestamp ce) (timestamp cs)))).
Proof.
  intros Hs He Hsn Hen Hcs Hce Hdiff. unfold CalculateRate.
  by rewrite (CalculateRate_exit_quotient _ _ _ _ s e cs ce).
Qed.

(** ** The start index *)

(** Every exit of [CalculateRate] past the index search carries the indices
    the two searches returned. *)
Lemma CalculateRate_exit_indices (q : Queue) (now lookbackSeconds : Z)
    (partitionName : string) (x : RateExit) (s e : Z) :
  CalculateRate_exit q now lookbackSeconds partitionName = Some x ->
  exitIndices x = Some (s, e) ->
  findStartIndex now lookbackSeconds (Items q) = Some s /\
  findEndIndex (Items q) = Some e.
Proof.
  intros Hx Hidx.
  destruct (CalculateRate_exit_cases q now lookbackSeconds partitionName)
    as [[_ Hexit] | (_ & s' & e' & Hs' & He' & _ & _ & Hexit)].
  - rewrite Hexit in Hx. by simplify_eq/=.
  - destruct Hexit as [[_ Hexit] | (_ & _ & cs & ce & _ & _ & Hexit)].
    + rewrite Hexit in Hx. by simplify_eq/=.
    + cbv zeta in Hexit. destruct Hexit as [[_ Hexit] | [_ Hexit]];
        rewrite Hexit in Hx; by simplify_eq/=.
Qed.

(** C3, as amended: on a history of two buckets or more whose second-to-last
    bucket is within the lookback window and has a closed window,
    [findStartIndex] returns the index of a bucket that is within the
    lookback window and closed; so is every bucket from there up to the
    second-to-last one, and the scan stopped at the first bucket, going
    backward, that breaks either condition (or at the head of the history).
    [CalculateRate] uses that index. *)
Theorem findStartIndex_usable (q : Queue) (now lookbackSeconds : Z)
    (c : TimestampedCounts) :
  let counts := Items q in
  (2 <= length counts)%nat ->
  counts !! (length counts - 2)%nat = Some c ->
  withinLookback now lookbackSeconds c ->
  IsWindowClosed c = true ->
  exists i b,
    findStartIndex now lookbackSeconds counts = Some (Z.of_nat i) /\
    (i <= length counts - 2)%nat /\
    counts !! i = Some b /\ usable now lookbackSeconds b /\
    (forall j b', (i <= j <= length counts - 2)%nat -> counts !! j = Some b' ->
                  usable now lookbackSeconds b') /\
    (i = 0%nat \/
     exists i' b', i = S i' /\ counts !! i' = Some b' /\
                   ~ usable now lookbackSeconds b') /\
    (forall partitionName x s e,
       CalculateRate_exit q now lookbackSeconds partitionName = Some x ->
       exitIndices x = Some (s, e) -> s = Z.of_nat i).
Proof.
  intros counts Hn Hc Hage Hclosed.
  assert (Hstart : findStartIndex now lookbackSeconds counts =
                   findStartIndex_loop now lookbackSeconds counts
                     (length counts - 1) (Z.of_nat (length counts - 2))).
  { rewrite (findStartIndex_unfold _ _ _ c Hn Hc). unfold withinLookback in Hage.
    destruct (Z.ltb_spec lookbackSeconds (Int64.sub now (timestamp c))); [lia|done]. }
  destruct (findStartIndex_loop_spec now lookbackSeconds counts
              (length counts - 1) (Z.of_nat (length counts - 2)) ltac:(lia))
    as (s & Hs & Hspec).
  assert (Hc_ok : usable now lookbackSeconds c) by (split; assumption).
  destruct Hspec as [[-> Hstop] | (i & -> & Hi & Hall & Hstop)].
  - (* the scan stopped at once: impossible, the second-to-last bucket is usable *)
    exfalso. destruct Hstop as [Hk | (i & b & Hk & Hb & Hnot)]; [lia|].
    replace i with (length counts - 2)%nat in Hb by lia. congruence.
  - destruct (lookup_lt_is_Some_2 counts i ltac:(lia)) as [b Hb].
    exists i, b. rewrite Hstart. split_and!; try done; try lia.
    + apply (Hall i b); [lia|exact Hb].
    + intros j b' Hj Hb'. apply (Hall j b'); [lia|exact Hb'].
    + intros partitionName x s e Hx Hidx.
      destruct (CalculateRate_exit_indices _ _ _ _ _ _ _ Hx Hidx) as [Hs' _].
      fold counts in Hs'. congruence.
Qed.

(** C3 as stated fails: the second-to-last bucket of [twoOpenBuckets] is
    within 20 seconds of 110, yet the start index returned, 0, is the index
    of a bucket whose window is open. *)
Lemma findStartIndex_open_bucket :
  (2 <= length twoOpenBuckets)%nat /\
  (exists c, twoOpenBuckets !! (length twoOpenBuckets - 2)%nat = Some c /\
             withinLookback 110 20 c) /\
  findStartIndex 110 20 twoOpenBuckets = Some 0 /\
  ~ (exists b, twoOpenBuckets !! 0%nat = Some b /\ IsWindowClosed b = true).
Proof.
  split_and!.
  - simpl. lia.
  - eexists. split; [reflexivity|]. by vm_compute.
  - reflexivity.
  - intros (b & Hb & Hclosed). simpl in Hb. by simplify_eq.
Qed.

(** ** The end index *)

(** C6: [findEndIndex] returns the index of the most recent bucket whose
    window is closed (every bucket after it is open), or [IndexNotFound]
    when no bucket is closed.  [CalculateRate] uses that index: on a history
    of two buckets or more it leaves through an exit that carries the start
    index of [findStartIndex] and this end index, it returns the value of
    that exit, and when both indices are found the exit is the one the two
    buckets at these indices decide, with the sum taken from the start index
    up to this end index and the time difference taken at this end index.
    When no bucket of the history is closed, [CalculateRate] returns 0. *)
Theorem CalculateRate_end_index (q : Queue) (now lookbackSeconds : Z)
    (partitionName vertexName : string) :
  let counts := Items q in
  exists e, findEndIndex counts = Some e /\
    ((e = IndexNotFound /\
      forall j b, counts !! j = Some b -> IsWindowClosed b = false)
     \/
     (exists i b, e = Z.of_nat i /\ counts !! i = Some b /\
        IsWindowClosed b = true /\
        forall j b', (i < j)%nat -> counts !! j = Some b' ->
                     IsWindowClosed b' = false)) /\
    (forall x s e', CalculateRate_exit q now lookbackSeconds partitionName = Some x ->
                    exitIndices x = Some (s, e') -> e' = e) /\
    ((2 <= length counts)%nat ->
     exists s x,
       findStartIndex now lookbackSeconds counts = Some s /\
       CalculateRate_exit q now lookbackSeconds partitionName = Some x /\
       exitIndices x = Some (s, e) /\
       CalculateRate q now lookbackSeconds partitionName vertexName
         = Some (exitValue x) /\
       (s <> IndexNotFound -> e <> IndexNotFound ->
        exists cs ce,
          index counts s = Some cs /\ index counts e = Some ce /\
          x = if Int64.sub (timestamp ce) (timestamp cs) =? 0
              then ExitZeroTimeDiff s e
              else ExitQuotient s e (closedDeltaSum counts partitionName s e)
                     (Int64.sub (timestamp ce) (timestamp cs)))) /\
    ((forall j b, counts !! j = Some b -> IsWindowClosed b = false) ->
     CalculateRate q now lookbackSeconds partitionName vertexName = Some Float64.zero).
Proof.
  intros counts.
  destruct (findEndIndex_loop_spec counts (length counts) ltac:(lia))
    as (e & He & Hspec).
  fold (findEndIndex counts) in He.
  exists e. split; [exact He|]. split_and!.
  - destruct Hspec as [[-> Hopen] | (i & b & -> & Hi & Hb & Hbc & Hafter)].
    + left. split; [reflexivity|]. intros j b Hb.
      apply (Hopen j b); [|exact Hb]. by apply lookup_lt_Some in Hb.
    + right. exists i, b. split_and!; try done.
      intros j b' Hj Hb'. apply (Hafter j b'); [|exact Hb'].
      apply lookup_lt_Some in Hb'. lia.
  - intros x s e' Hx Hidx.
    destruct (CalculateRate_exit_indices _ _ _ _ _ _ _ Hx Hidx) as [_ He'].
    fold counts in He'. congruence.
  - intros Hlen.
    destruct (CalculateRate_exit_cases q now lookbackSeconds partitionName)
      as [[Hshort _] | (_ & s & e0 & Hs & He0 & _ & _ & Hexit)];
      [fold counts in Hshort; lia|].
    fold counts in Hs, He0, Hexit. rewrite He in He0. injection He0 as <-.
    exists s. unfold CalculateRate.
    destruct Hexit as [[Hnf Hx] | (_ & _ & cs & ce & Hcs & Hce & Hx)].
    + eexists. rewrite Hx. split_and!; try done.
      intros Hsn Hen. by destruct Hnf.
    + cbv zeta in Hx. destruct Hx as [[Hz Hx] | [Hnz Hx]].
      * eexists. rewrite Hx. split_and!; try done.
        intros _ _. exists cs, ce. split_and!; try done. by rewrite Hz.
      * eexists. rewrite Hx. split_and!; try done.
        intros _ _. exists cs, ce. split_and!; try done.
        by destruct (Z.eqb_spec (Int64.sub (timestamp ce) (timestamp cs)) 0).
  - intros Hopen. unfold CalculateRate, CalculateRate_exit. fold counts.
    destruct (length counts <=? 1)%nat; [done|].
    destruct (findStartIndex_total now lookbackSeconds counts) as (s & -> & _).
    rewrite He. simpl.
    assert (e = IndexNotFound) as ->.
    { destruct Hspec as [[-> _] | (i & b & -> & Hi & Hb & Hbc & _)]; [done|].
      rewrite (Hopen i b Hb) in Hbc. discriminate. }
    rewrite orb_true_r. reflexivity.
Qed.

(** ** Ingestion *)

Section Ingestion.

Implicit Types (q : Queue) (time : Z) (r : PodReadCount).
Implicit Types (items older newer : History) (b prev last : TimestampedCounts).

Lemma closeMostRecent_nil : closeMostRecent [] = Some [].
Proof. reflexivity. Qed.

Lemma closeMostRecent_one b : closeMostRecent [b] = Some [CloseWindow None b].
Proof. reflexivity. Qed.

Lemma closeMostRecent_more older prev last :
  closeMostRecent (older ++ [prev; last])
  = Some (older ++ [prev; CloseWindow (Some prev) last]).
Proof.
  unfold closeMostRecent. rewrite length_app. simpl.
  replace (length older + 2)%nat with (S (S (length older))) by lia.
  replace (older ++ [prev; last]) with ((older ++ [prev]) ++ [last])
    by (by rewrite <- app_assoc).
  rewrite (lookup_app_r _ _ (S (length older))) by (rewrite length_app; simpl; lia).
  rewrite length_app. simpl.
  replace (S (length older) - (length older + 1))%nat with 0%nat by lia. simpl.
  rewrite lookup_app_l by (rewrite length_app; simpl; lia).
  rewrite list_lookup_middle by done. simpl.
  rewrite insert_app_r_alt by (rewrite length_app; simpl; lia).
  rewrite length_app. simpl.
  replace (S (length older) - (length older + 1))%nat with 0%nat by lia. simpl.
  by rewrite <- app_assoc.
Qed.

Lemma list_find_first older b newer time :
  Forall (fun x => timestamp x <> time) older -> timestamp b = time ->
  list_find (fun i => timestamp i = time) (older ++ b :: newer)
  = Some (length older, b).
Proof.
  intros Hold Hb. apply list_find_Some. split_and!.
  - by apply list_lookup_middle.
  - exact Hb.
  - intros j y Hy Hj. rewrite lookup_app_l in Hy by lia.
    rewrite Forall_lookup in Hold. by apply (Hold j y).
Qed.

(** C1: the four cases of [UpdateCount].  When a bucket with the timestamp
    exists, the first such bucket gets the [Update] and nothing else
    happens: no window is closed, nothing is appended.  When none exists, a
    new bucket is made and updated, and then: on an empty history it is
    appended with no closure; on a history of one bucket, [CloseWindow] is
    called on that bucket with [nil] as baseline, then the new bucket is
    appended; on a history of two buckets or more, [CloseWindow] is called
    on the most recent bucket with the second-most-recent one as baseline,
    then the new bucket is appended. *)
Theorem UpdateCount_cases q time r :
  let tc := Update r (NewTimestampedCounts time) in
  (forall older b newer,
      Items q = older ++ b :: newer ->
      Forall (fun x => timestamp x <> time) older -> timestamp b = time ->
      UpdateCount q time r = Some (withItems q (older ++ Update r b :: newer)))
  /\
  (Forall (fun x => timestamp x <> time) (Items q) ->
   (Items q = [] -> UpdateCount q time r = Some (Append q tc)) /\
   (forall b, Items q = [b] ->
      UpdateCount q time r
      = Some (Append (withItems q [CloseWindow None b]) tc)) /\
   (forall older prev last, Items q = older ++ [prev; last] ->
      UpdateCount q time r
      = Some (Append (withItems q (older ++ [prev; CloseWindow (Some prev) last]))
                     tc))).
Proof.
  intros tc. split.
  - intros older b newer Hitems Hold Hb. unfold UpdateCount.
    rewrite Hitems, (list_find_first _ _ _ _ Hold Hb).
    rewrite insert_app_r_alt by lia. by rewrite Nat.sub_diag.
  - intros Hnone.
    assert (Hfind : list_find (fun i => timestamp i = time) (Items q) = None)
      by (by apply list_find_None).
    unfold UpdateCount. rewrite Hfind. fold tc. split_and!.
    + intros Hitems. rewrite Hitems. simpl. do 2 f_equal.
      destruct q as [els sz]. simpl in Hitems. by subst.
    + intros b Hitems. rewrite Hitems. by rewrite closeMostRecent_one.
    + intros older prev last Hitems. rewrite Hitems.
      by rewrite closeMostRecent_more.
Qed.

Lemma closeMostRecent_frame items :
  exists items',
    closeMostRecent items = Some items' /\
    length items' = length items /\
    forall i, (S i < length items)%nat -> items' !! i = items !! i.
Proof.
  unfold closeMostRecent. destruct (length items) as [|[|m]] eqn:Hlen.
  - exists items. by rewrite Hlen.
  - destruct (lookup_lt_is_Some_2 items 0 ltac:(lia)) as [first Hfirst].
    rewrite Hfirst. eexists. split; [reflexivity|].
    rewrite length_insert. split; [done|]. intros i Hi. lia.
  - destruct (lookup_lt_is_Some_2 items (S m) ltac:(lia)) as [last Hlast].
    destruct (lookup_lt_is_Some_2 items m ltac:(lia)) as [prev Hprev].
    rewrite Hlast, Hprev. eexists. split; [reflexivity|].
    rewrite length_insert. split; [done|]. intros i Hi.
    apply list_lookup_insert_ne. lia.
Qed.

(** C9 (frame of [UpdateCount]): the call always returns.  When a bucket
    with the timestamp exists, the history keeps its length and every
    bucket keeps its window-closed state.  When none exists, the history
    becomes the old buckets followed by exactly one new bucket, which is
    open and carries the timestamp, less the oldest bucket when the
    capacity is exceeded; among the old buckets only the most recent one
    may differ from before: every earlier bucket is unchanged, its
    window-closed state and its delta snapshot included. *)
Theorem UpdateCount_frame q time r :
  exists q',
    UpdateCount q time r = Some q' /\
    (Exists (fun b => timestamp b = time) (Items q) ->
     length (Items q') = length (Items q) /\
     IsWindowClosed <$> Items q' = IsWindowClosed <$> Items q)
    /\
    (Forall (fun b => timestamp b <> time) (Items q) ->
     exists items' tc,
       Items q' = drop (if (size q <? S (length (Items q)))%nat then 1 else 0)%nat
                       (items' ++ [tc]) /\
       timestamp tc = time /\ IsWindowClosed tc = false /\
       length items' = length (Items q) /\
       forall i b, (S i < length (Items q))%nat -> Items q !! i = Some b ->
                   items' !! i = Some b /\
                   IsWindowClosed <$> items' !! i = Some (IsWindowClosed b) /\
                   PodDeltaCountSnapshot <$> items' !! i
                   = Some (PodDeltaCountSnapshot b)).
Proof.
  unfold UpdateCount.
  destruct (list_find (fun i => timestamp i = time) (Items q)) as [[k b]|] eqn:Hfind.
  - apply list_find_Some in Hfind as (Hk & Hb & _).
    eexists. split; [reflexivity|]. split.
    + intros _. simpl. rewrite length_insert. split; [done|].
      rewrite list_fmap_insert. apply list_insert_id.
      by rewrite list_lookup_fmap, Hk.
    + intros Hnone. rewrite Forall_lookup in Hnone. by destruct (Hnone k b Hk).
  - apply list_find_None in Hfind.
    destruct (closeMostRecent_frame (Items q)) as (items' & -> & Hlen & Hsame).
    eexists. split; [reflexivity|]. split.
    + intros Hsome. apply Exists_exists in Hsome as (b & Hb & Ht).
      rewrite Forall_forall in Hfind. by destruct (Hfind b Hb).
    + intros _. exists items', (Update r (NewTimestampedCounts time)).
      split_and!; try done.
      * simpl. rewrite length_app, Hlen. simpl.
        replace (length (Items q) + 1)%nat with (S (length (Items q))) by lia.
        by destruct (size q <? S (length (Items q)))%nat.
      * intros i b Hi Hb. rewrite (Hsame i Hi), Hb. done.
Qed.

Lemma CloseWindow_closed (baseline : option TimestampedCounts) b :
  IsWindowClosed (CloseWindow baseline b) = true.
Proof. unfold CloseWindow, IsWindowClosed. by destruct (isWindowClosed b) eqn:H. Qed.

Lemma closeMostRecent_closed items items' i b :
  closeMostRecent items = Some items' -> S i = length items ->
  items' !! i = Some b -> IsWindowClosed b = true.
Proof.
  unfold closeMostRecent. intros Hclose Hi Hb.
  destruct (length items) as [|[|m]] eqn:Hlen; [lia| |].
  - destruct (items !! 0%nat) as [first|] eqn:Hfirst; [|done]. simplify_eq/=.
    rewrite list_lookup_insert_eq in Hb by lia. simplify_eq.
    apply CloseWindow_closed.
  - destruct (items !! S m) as [last|] eqn:Hlast; [|done].
    destruct (items !! m) as [prev|] eqn:Hprev; [|done]. simplify_eq/=.
    rewrite list_lookup_insert_eq in Hb by lia. simplify_eq.
    apply CloseWindow_closed.
Qed.

(** X14: [UpdateCount] keeps every bucket but the most recent one closed: if
    the history has this shape before the call, it has it after the call.
    The empty queue has it, and so has every history built by [UpdateCount]
    alone. *)
Lemma UpdateCount_allButLastClosed q q' time r :
  allButLastClosed (Items q) -> UpdateCount q time r = Some q' ->
  allButLastClosed (Items q').
Proof.
  intros Hinv. unfold UpdateCount.
  destruct (list_find (fun i => timestamp i = time) (Items q)) as [[k b]|] eqn:Hfind.
  - intros [= <-]. apply list_find_Some in Hfind as (Hk & _ & _).
    intros i b' Hi Hb'. simpl in Hi, Hb'. rewrite length_insert in Hi.
    destruct (decide (k = i)) as [->|Hne].
    + rewrite list_lookup_insert_eq in Hb' by lia. simplify_eq.
      apply (Hinv i b Hi Hk).
    + rewrite list_lookup_insert_ne in Hb' by done. by apply (Hinv i b').
  - destruct (closeMostRecent_frame (Items q)) as (items' & Hclose & Hlen & Hsame).
    rewrite Hclose. intros [= <-]. intros i b Hi Hb. simpl in Hi, Hb.
    assert (Hin : forall j, (j < length items')%nat -> items' !! j = Some b ->
                            IsWindowClosed b = true).
    { intros j Hj Hjb. destruct (decide (S j = length (Items q))) as [Hlast|Hnot].
      - by apply (closeMostRecent_closed _ _ _ _ Hclose Hlast).
      - apply (Hinv j b); [lia|]. rewrite <- Hsame by lia. done. }
    rewrite length_app in Hi, Hb. simpl in Hi, Hb.
    destruct (size q <? length items' + 1)%nat.
    + rewrite length_drop, length_app in Hi. simpl in Hi.
      rewrite lookup_drop, lookup_app_l in Hb by lia. apply (Hin (1 + i)%nat); [lia|done].
    + rewrite length_app in Hi. simpl in Hi.
      rewrite lookup_app_l in Hb by lia. apply (Hin i); [lia|done].
Qed.

End Ingestion.

(** ** Facts on binary64 rounding *)

Lemma digits2_pos_bounds (p : positive) :
  2 ^ (Z.pos (digits2_pos p) - 1) <= Z.pos p < 2 ^ Z.pos (digits2_pos p).
Proof.
  induction p as [p IH|p IH|]; cbn [digits2_pos].
  - rewrite Pos2Z.inj_succ.
    replace (Z.succ (Z.pos (digits2_pos p)) - 1) with (Z.succ (Z.pos (digits2_pos p) - 1)) by lia.
    rewrite !Z.pow_succ_r by lia. lia.
  - rewrite Pos2Z.inj_succ.
    replace (Z.succ (Z.pos (digits2_pos p)) - 1) with (Z.succ (Z.pos (digits2_pos p) - 1)) by lia.
    rewrite !Z.pow_succ_r by lia. lia.
  - simpl. lia.
Qed.

Lemma digits2_pos_le (p : positive) (k : Z) :
  Z.pos p < 2 ^ k -> Z.pos (digits2_pos p) <= k.
Proof.
  intros H. destruct (digits2_pos_bounds p) as [Hlo _].
  destruct (Z.le_gt_cases (Z.pos (digits2_pos p)) k) as [|Hgt]; [done|].
  assert (2 ^ k <= 2 ^ (Z.pos (digits2_pos p) - 1)) by (apply Z.pow_le_mono_r; lia).
  lia.
Qed.

Lemma digits2_pos_iter_xO (p k : positive) :
  digits2_pos (Pos.iter xO p k) = (digits2_pos p + k)%positive.
Proof.
  induction k as [|k IH] using Pos.peano_ind.
  - simpl. lia.
  - rewrite Pos.iter_succ. cbn [digits2_pos]. rewrite IH. lia.
Qed.

Lemma shr_1_m (mrs : shr_record) :
  0 <= shr_m mrs -> shr_m (shr_1 mrs) = shr_m mrs / 2.
Proof.
  destruct mrs as [m r s]. simpl. intros Hm. rewrite <- Z.div2_div.
  destruct m as [|[p|p|]|p]; try lia; reflexivity.
Qed.

Lemma pow2_xI (p : positive) : 2 ^ Z.pos p~1 = 2 * 2 ^ Z.pos p * 2 ^ Z.pos p.
Proof.
  rewrite (Pos2Z.inj_xI p). replace (2 * Z.pos p + 1) with (Z.pos p + Z.pos p + 1) by lia.
  rewrite !Z.pow_add_r by lia. lia.
Qed.

Lemma pow2_xO (p : positive) : 2 ^ Z.pos p~0 = 2 ^ Z.pos p * 2 ^ Z.pos p.
Proof.
  rewrite (Pos2Z.inj_xO p). replace (2 * Z.pos p) with (Z.pos p + Z.pos p) by lia.
  by rewrite Z.pow_add_r by lia.
Qed.

Lemma iter_pos_shr_1_m (p : positive) (mrs : shr_record) :
  0 <= shr_m mrs -> shr_m (SpecFloat.iter_pos shr_1 p mrs) = shr_m mrs / 2 ^ Z.pos p.
Proof.
  revert mrs. induction p as [p IH|p IH|]; intros mrs Hm; cbn [SpecFloat.iter_pos].
  - assert (0 < 2 ^ Z.pos p) by (apply Z.pow_pos_nonneg; lia).
    assert (0 <= shr_m (shr_1 mrs)) by (rewrite shr_1_m by done; apply Z.div_pos; lia).
    assert (0 <= shr_m (SpecFloat.iter_pos shr_1 p (shr_1 mrs)))
      by (rewrite IH by done; apply Z.div_pos; lia).
    rewrite !IH, shr_1_m by done.
    rewrite !Z.div_div by lia. f_equal. rewrite pow2_xI. lia.
  - assert (0 < 2 ^ Z.pos p) by (apply Z.pow_pos_nonneg; lia).
    assert (0 <= shr_m (SpecFloat.iter_pos shr_1 p mrs))
      by (rewrite IH by done; apply Z.div_pos; lia).
    rewrite !IH by done.
    rewrite !Z.div_div by lia. f_equal. rewrite pow2_xO. lia.
  - rewrite shr_1_m by done. reflexivity.
Qed.

(** The mantissa and exponent after the shift that [shr_fexp] applies. *)
Lemma shr_fexp_m (m e : Z) (l : location) :
  0 <= m ->
  let n := fexp Float64.prec Float64.emax (Zdigits2 m + e) - e in
  shr_m (fst (shr_fexp Float64.prec Float64.emax m e l)) = m / 2 ^ Z.max n 0 /\
  snd (shr_fexp Float64.prec Float64.emax m e l) = e + Z.max n 0.
Proof.
  intros Hm n. unfold shr_fexp. fold n.
  assert (Hrec : shr_m (shr_record_of_loc m l) = m) by (by destruct l as [|[]]).
  unfold shr. destruct n as [|p|p]; simpl fst; simpl snd.
  - rewrite Hrec. simpl. rewrite Z.div_1_r. lia.
  - rewrite iter_pos_shr_1_m by lia. rewrite Hrec.
    replace (Z.max (Z.pos p) 0) with (Z.pos p) by lia. done.
  - rewrite Hrec. replace (Z.max (Z.neg p) 0) with 0 by lia.
    simpl. rewrite Z.div_1_r. lia.
Qed.

Lemma round_nearest_even_bounds (m : Z) (l : location) :
  m <= round_nearest_even m l <= m + 1.
Proof. destruct l as [|[]]; simpl; try lia. destruct (Z.even m); lia. Qed.

Lemma Zdigits2_bounds (m : Z) :
  0 < m -> 0 < Zdigits2 m /\ 2 ^ (Zdigits2 m - 1) <= m < 2 ^ Zdigits2 m.
Proof.
  destruct m as [|p|p]; try lia. intros _. simpl. split; [lia|].
  apply digits2_pos_bounds.
Qed.

Lemma Zdigits2_le (m k : Z) : 0 < m -> m < 2 ^ k -> Zdigits2 m <= k.
Proof. destruct m as [|p|p]; try lia. intros _. apply digits2_pos_le. Qed.

(** Rounding a positive mantissa of moderate exponent gives a finite number
    of the sign asked for. *)
Lemma binary_round_aux_finite (s : bool) (m e : Z) (l : location) :
  0 < m -> -1074 <= e <= 900 -> Zdigits2 m + e <= 1000 ->
  exists m' e', binary_round_aux Float64.prec Float64.emax s m e l = S754_finite s m' e'.
Proof.
  intros Hm He Hde. unfold binary_round_aux.
  destruct (Zdigits2_bounds m Hm) as [HD [Hlo Hhi]].
  destruct (shr_fexp_m m e l ltac:(lia)) as [Hm1 He1].
  destruct (shr_fexp Float64.prec Float64.emax m e l) as [mrs1 e1].
  simpl in Hm1, He1.
  set (n1 := fexp Float64.prec Float64.emax (Zdigits2 m + e) - e) in *.
  assert (Hn1 : n1 = Z.max (Zdigits2 m - 53) (-1074 - e))
    by (unfold n1, fexp, emin, Float64.prec, Float64.emax; lia).
  (* the mantissa after the first shift *)
  assert (Hm1_lo : 1 <= shr_m mrs1).
  { rewrite Hm1. apply Z.div_le_lower_bound; [apply Z.pow_pos_nonneg; lia|].
    rewrite Z.mul_1_r. etransitivity; [|exact Hlo].
    apply Z.pow_le_mono_r; lia. }
  assert (Hm1_hi : shr_m mrs1 < 2 ^ 53).
  { rewrite Hm1. apply Z.div_lt_upper_bound; [apply Z.pow_pos_nonneg; lia|].
    rewrite <- Z.pow_add_r by lia.
    eapply Z.lt_le_trans; [exact Hhi|]. apply Z.pow_le_mono_r; lia. }
  set (m2 := round_nearest_even (shr_m mrs1) (loc_of_shr_record mrs1)).
  pose proof (round_nearest_even_bounds (shr_m mrs1) (loc_of_shr_record mrs1)) as Hm2.
  fold m2 in Hm2.
  destruct (Zdigits2_bounds m2 ltac:(lia)) as [HD2 [Hlo2 Hhi2]].
  assert (HD2' : Zdigits2 m2 <= 54) by (apply Zdigits2_le; lia).
  destruct (shr_fexp_m m2 e1 loc_Exact ltac:(lia)) as [Hm3 He3].
  destruct (shr_fexp Float64.prec Float64.emax m2 e1 loc_Exact) as [mrs3 e3].
  simpl in Hm3, He3.
  set (n2 := fexp Float64.prec Float64.emax (Zdigits2 m2 + e1) - e1) in *.
  assert (Hn2 : n2 = Z.max (Zdigits2 m2 - 53) (-1074 - e1))
    by (unfold n2, fexp, emin, Float64.prec, Float64.emax; lia).
  assert (Hm3_lo : 1 <= shr_m mrs3).
  { rewrite Hm3. apply Z.div_le_lower_bound; [apply Z.pow_pos_nonneg; lia|].
    rewrite Z.mul_1_r. etransitivity; [|exact Hlo2].
    apply Z.pow_le_mono_r; lia. }
  destruct (shr_m mrs3) as [|m3|m3] eqn:Hm3e; try lia.
  assert (He3' : (e3 <=? Float64.emax - Float64.prec) = true).
  { apply Z.leb_le. unfold Float64.emax, Float64.prec. lia. }
  rewrite He3'. by eexists _, _.
Qed.

Lemma binary_round_finite (s : bool) (p : positive) :
  Z.pos p < 2 ^ 64 ->
  exists m' e', binary_round Float64.prec Float64.emax s p 0 = S754_finite s m' e'.
Proof.
  intros Hp. unfold binary_round.
  pose proof (digits2_pos_le p 64 Hp) as Hd.
  unfold shl_align, fexp, emin, Float64.prec, Float64.emax.
  set (d := Z.pos (digits2_pos p)) in *.
  replace (Z.max (d + 0 - 53) (3 - 1024 - 53) - 0) with (d - 53) by lia.
  destruct (d - 53) as [|k|k] eqn:Hk.
  - apply binary_round_aux_finite; simpl; fold d; lia.
  - apply binary_round_aux_finite; simpl; fold d; lia.
  - replace (Z.max (d + 0 - 53) (3 - 1024 - 53)) with (Z.neg k) by lia.
    apply binary_round_aux_finite; simpl; try lia.
    rewrite digits2_pos_iter_xO. fold d. lia.
Qed.

Lemma of_int_finite (z : Z) :
  z <> 0 -> - 2 ^ 63 <= z <= 2 ^ 63 - 1 ->
  exists m e, Float64.of_int z = S754_finite (z <? 0) m e.
Proof.
  intros Hz Hr. unfold Float64.of_int, binary_normalize.
  destruct z as [|p|p]; [done| |]; apply binary_round_finite; lia.
Qed.

Lemma binary_round_aux_sign (s : bool) (m e : Z) (l : location) :
  0 <= m -> hasSign s (binary_round_aux Float64.prec Float64.emax s m e l).
Proof.
  intros Hm. unfold binary_round_aux.
  destruct (shr_fexp_m m e l Hm) as [Hm1 _].
  destruct (shr_fexp Float64.prec Float64.emax m e l) as [mrs1 e1]. simpl in Hm1.
  assert (Hm1' : 0 <= shr_m mrs1)
    by (rewrite Hm1; apply Z.div_pos; [lia|apply Z.pow_pos_nonneg; lia]).
  pose proof (round_nearest_even_bounds (shr_m mrs1) (loc_of_shr_record mrs1)) as Hm2.
  set (m2 := round_nearest_even (shr_m mrs1) (loc_of_shr_record mrs1)) in *.
  destruct (shr_fexp_m m2 e1 loc_Exact ltac:(lia)) as [Hm3 _].
  destruct (shr_fexp Float64.prec Float64.emax m2 e1 loc_Exact) as [mrs3 e3].
  simpl in Hm3.
  assert (Hm3' : 0 <= shr_m mrs3)
    by (rewrite Hm3; apply Z.div_pos; [lia|apply Z.pow_pos_nonneg; lia]).
  destruct (shr_m mrs3) as [|m3|m3]; [done| |lia].
  by destruct (e3 <=? Float64.emax - Float64.prec).
Qed.

Lemma binary_round_sign (s : bool) (p : positive) (e : Z) :
  hasSign s (binary_round Float64.prec Float64.emax s p e).
Proof.
  unfold binary_round. destruct (shl_align _ _ _) as [mz ez].
  apply binary_round_aux_sign. lia.
Qed.

Lemma binary_normalize_not_nan (m e : Z) (szero : bool) :
  binary_normalize Float64.prec Float64.emax m e szero <> S754_nan.
Proof.
  destruct m as [|p|p]; simpl; [done| |].
  - pose proof (binary_round_sign false p e) as H. intros Hn. by rewrite Hn in H.
  - pose proof (binary_round_sign true p e) as H. intros Hn. by rewrite Hn in H.
Qed.

Lemma nonneg_iff (x : float64) :
  Float64.nonneg x <->
  match x with
  | S754_zero _ => True
  | S754_infinity s | S754_finite s _ _ => s = false
  | S754_nan => False
  end.
Proof.
  unfold Float64.nonneg, Float64.leb, SFleb, Float64.zero.
  destruct x as [s|s| |s m e]; simpl; try destruct s; split; try done.
Qed.

Lemma hasSign_nonneg (x : float64) : hasSign false x -> Float64.nonneg x.
Proof. intros H. apply nonneg_iff. by destruct x. Qed.

Lemma add_nonneg (x y : float64) :
  Float64.nonneg x -> Float64.nonneg y -> Float64.nonneg (Float64.add x y).
Proof.
  intros Hx%nonneg_iff Hy%nonneg_iff.
  destruct x as [sx|sx| |sx mx ex], y as [sy|sy| |sy my ey];
    try done; simplify_eq; try (apply nonneg_iff; done);
    try (apply nonneg_iff; by destruct sx); try (apply nonneg_iff; by destruct sy);
    try (apply nonneg_iff; by destruct sx, sy).
  apply hasSign_nonneg.
  unfold Float64.add, SFadd, binary_normalize, cond_Zopp.
  cbn [Z.add]. apply binary_round_sign.
Qed.

Lemma div_core_nonneg (m1 e1 m2 e2 : Z) :
  0 <= m1 -> 0 < m2 ->
  0 <= fst (fst (SFdiv_core_binary Float64.prec Float64.emax m1 e1 m2 e2)).
Proof.
  intros H1 H2. unfold SFdiv_core_binary.
  set (s := _ - _ - _).
  set (m' := match s with Z0 => m1 | Z.pos _ => Z.shiftl m1 s | Z.neg _ => 0 end).
  assert (0 <= m').
  { subst m'. destruct s; [done| |done]. by apply Z.shiftl_nonneg. }
  pose proof (Z.div_pos m' m2 ltac:(done) ltac:(done)) as Hq.
  unfold Z.div in Hq. by destruct (Z.div_eucl m' m2).
Qed.

Lemma div_finite_sign (sx sy : bool) (mx my : positive) (ex ey : Z) :
  hasSign (xorb sx sy)
    (Float64.div (S754_finite sx mx ex) (S754_finite sy my ey)).
Proof.
  unfold Float64.div, SFdiv.
  pose proof (div_core_nonneg (Z.pos mx) ex (Z.pos my) ey ltac:(lia) ltac:(lia)) as Hq.
  destruct (SFdiv_core_binary _ _ _ _ _ _) as [[mz ez] lz]. simpl in Hq.
  by apply binary_round_aux_sign.
Qed.

Lemma div_nonneg (x : float64) (m : positive) (e : Z) :
  Float64.nonneg x -> Float64.nonneg (Float64.div x (S754_finite false m e)).
Proof.
  intros Hx%nonneg_iff.
  destruct x as [sx|sx| |sx mx ex]; try done; simplify_eq.
  - reflexivity.
  - apply hasSign_nonneg. apply (div_finite_sign false false).
Qed.

Lemma div_zero_nonneg (s s' : bool) (m : positive) (e : Z) :
  Float64.eqb (Float64.div (S754_zero s) (S754_finite s' m e)) Float64.zero = true.
Proof. reflexivity. Qed.

Lemma div_finite_not_nan (x : float64) (s : bool) (m : positive) (e : Z) :
  x <> S754_nan -> Float64.div x (S754_finite s m e) <> S754_nan.
Proof.
  intros Hx. destruct x as [sx|sx| |sx mx ex]; try done.
  pose proof (div_finite_sign sx s mx m ex e) as H. intros Hn. by rewrite Hn in H.
Qed.

Lemma eqb_refl (x : float64) : x <> S754_nan -> Float64.eqb x x = true.
Proof.
  intros Hx. unfold Float64.eqb, SFeqb, SFcompare.
  destruct x as [s|s| |s m e]; try done; try (by destruct s).
  rewrite Z.compare_refl, Pos.compare_cont_refl. by destruct s.
Qed.

Lemma ltb_antisym (x y : float64) : Float64.ltb x y = true -> Float64.ltb y x = false.
Proof.
  unfold Float64.ltb, SFltb, SFcompare.
  destruct x as [sx|sx| |sx mx ex], y as [sy|sy| |sy my ey];
    try done; try (by destruct sx); try (by destruct sy); try (by destruct sx, sy).
  assert (Hm : Pos.compare_cont Eq my mx = CompOpp (Pos.compare_cont Eq mx my))
    by (by rewrite Pos.compare_cont_antisym).
  rewrite (Z.compare_antisym ex ey), Hm.
  destruct sx, sy; try done; destruct (ex ?= ey); simpl; try done;
    by destruct (Pos.compare_cont Eq mx my).
Qed.

Lemma sub_lt_not_nan (x y : float64) :
  Float64.ltb y x = true -> Float64.sub x y <> S754_nan.
Proof.
  unfold Float64.ltb, SFltb, SFcompare, Float64.sub, SFsub.
  destruct x as [sx|sx| |sx mx ex], y as [sy|sy| |sy my ey];
    try done; try (by destruct sx); try (by destruct sy); try (by destruct sx, sy).
  intros _. apply binary_normalize_not_nan.
Qed.

Lemma add_zero_l (x : float64) :
  Float64.add Float64.zero x = match x with S754_zero _ => Float64.zero | _ => x end.
Proof. by destruct x as [[]|[]| |]. Qed.

Lemma sub_zero_r (x : float64) : Float64.sub x Float64.zero = x.
Proof. by destruct x as [[]|[]| |]. Qed.

(** ** Integers below [2^53] are added and subtracted exactly *)

Lemma Zdigits2_unique (m d : Z) :
  0 < m -> 2 ^ (d - 1) <= m < 2 ^ d -> Zdigits2 m = d.
Proof.
  intros Hm [Hlo Hhi]. destruct (Zdigits2_bounds m Hm) as [HD [HDlo HDhi]].
  assert (0 < d).
  { destruct (Z.lt_trichotomy d 0) as [Hd|[->|Hd]]; [|simpl in Hhi; lia|done].
    rewrite Z.pow_neg_r in Hhi by lia. lia. }
  assert (Zdigits2 m - 1 < d) by (apply (Z.pow_lt_mono_r_iff 2); lia).
  assert (d - 1 < Zdigits2 m) by (apply (Z.pow_lt_mono_r_iff 2); lia).
  lia.
Qed.

Lemma Zdigits2_mul_pow2 (n k : Z) :
  0 < n -> 0 <= k -> Zdigits2 (n * 2 ^ k) = Zdigits2 n + k.
Proof.
  intros Hn Hk. destruct (Zdigits2_bounds n Hn) as [Hd [Hlo Hhi]].
  assert (Hp : 0 < 2 ^ k) by (apply Z.pow_pos_nonneg; lia).
  apply Zdigits2_unique; [nia|].
  replace (Zdigits2 n + k - 1) with (Zdigits2 n - 1 + k) by lia.
  rewrite !Z.pow_add_r by lia. nia.
Qed.

Lemma shr_1_even (m : Z) :
  0 <= m ->
  shr_1 {| shr_m := 2 * m; shr_r := false; shr_s := false |}
  = {| shr_m := m; shr_r := false; shr_s := false |}.
Proof. destruct m as [|p|p]; [done|done|lia]. Qed.

Lemma iter_pos_shr_1_exact (p : positive) (m : Z) :
  0 <= m ->
  SpecFloat.iter_pos shr_1 p {| shr_m := m * 2 ^ Z.pos p; shr_r := false; shr_s := false |}
  = {| shr_m := m; shr_r := false; shr_s := false |}.
Proof.
  revert m. induction p as [p IH|p IH|]; intros m Hm; cbn [SpecFloat.iter_pos].
  - assert (0 < 2 ^ Z.pos p) by (apply Z.pow_pos_nonneg; lia).
    rewrite pow2_xI.
    replace (m * (2 * 2 ^ Z.pos p * 2 ^ Z.pos p))
      with (2 * (m * 2 ^ Z.pos p * 2 ^ Z.pos p)) by lia.
    rewrite shr_1_even by nia. rewrite IH by nia. by apply IH.
  - assert (0 < 2 ^ Z.pos p) by (apply Z.pow_pos_nonneg; lia).
    rewrite pow2_xO. rewrite Z.mul_assoc. rewrite IH by nia. by apply IH.
  - replace (m * 2 ^ 1) with (2 * m) by lia. by apply shr_1_even.
Qed.

Lemma fexp_53 (e : Z) : -1021 <= e -> fexp Float64.prec Float64.emax e = e - 53.
Proof. unfold fexp, emin, Float64.prec, Float64.emax. lia. Qed.

(** Rounding is the identity on a mantissa of 53 bits, also when it comes
    with [j] further zero bits. *)
Lemma binary_round_aux_exact (m e j : Z) :
  0 < m -> Zdigits2 m = 53 -> 0 <= j -> -1074 <= e <= 971 ->
  binary_round_aux Float64.prec Float64.emax false (m * 2 ^ j) (e - j) loc_Exact
  = S754_finite false (Z.to_pos m) e.
Proof.
  intros Hm Hd Hj He. unfold binary_round_aux, shr_fexp.
  rewrite Zdigits2_mul_pow2 by lia. rewrite Hd.
  rewrite fexp_53 by lia.
  replace (53 + j + (e - j) - 53 - (e - j)) with j by lia.
  assert (Hshr : shr (shr_record_of_loc (m * 2 ^ j) loc_Exact) (e - j) j
                 = ({| shr_m := m; shr_r := false; shr_s := false |}, e)).
  { unfold shr, shr_record_of_loc. destruct j as [|p|p]; [|  |lia].
    - f_equal; [f_equal|]; lia.
    - rewrite iter_pos_shr_1_exact by lia. f_equal. lia. }
  rewrite Hshr. cbn [shr_m loc_of_shr_record round_nearest_even].
  rewrite Hd, fexp_53 by lia.
  replace (53 + e - 53 - e) with 0 by lia. cbn [shr shr_record_of_loc shr_m].
  destruct m as [|p|p]; try lia.
  destruct (Z.leb_spec e (Float64.emax - Float64.prec)) as [|Hgt]; [done|].
  unfold Float64.emax, Float64.prec in Hgt. lia.
Qed.

Lemma pos_iter_xO (m d : positive) : Z.pos (Pos.iter xO m d) = Z.pos m * 2 ^ Z.pos d.
Proof.
  induction d as [|d IH] using Pos.peano_ind.
  - simpl. lia.
  - rewrite Pos.iter_succ, Pos2Z.inj_xO, IH, Pos2Z.inj_succ, Z.pow_succ_r by lia. lia.
Qed.

(** An integer below [2^53], given with [k] further zero bits, is normalized
    to its 53-bit representation. *)
Lemma binary_normalize_exact (n k : Z) :
  0 < n < 2 ^ 53 -> 0 <= k ->
  binary_normalize Float64.prec Float64.emax (n * 2 ^ k) (- k) false = exactInt n.
Proof.
  intros Hn Hk. unfold exactInt.
  destruct (Zdigits2_bounds n ltac:(lia)) as [Hd0 [Hlo Hhi]].
  assert (Hd : Zdigits2 n <= 53) by (apply Zdigits2_le; lia).
  set (d := Zdigits2 n) in *.
  assert (Hp : 0 < 2 ^ k) by (apply Z.pow_pos_nonneg; lia).
  assert (Hq : 0 < 2 ^ (53 - d)) by (apply Z.pow_pos_nonneg; lia).
  assert (HM : Zdigits2 (n * 2 ^ (53 - d)) = 53).
  { rewrite Zdigits2_mul_pow2 by lia. fold d. lia. }
  pose proof (Zdigits2_mul_pow2 n k ltac:(lia) Hk) as HD. fold d in HD.
  destruct (n * 2 ^ k) as [|p|p] eqn:Hnk; try nia.
  cbn [binary_normalize]. unfold binary_round. cbn [Zdigits2] in HD. rewrite HD.
  rewrite fexp_53 by lia. unfold shl_align.
  replace (d + k + - k - 53 - - k) with (d - 53 + k) by lia.
  destruct (d - 53 + k) as [|j|j] eqn:Hj.
  - replace (- k) with (d - 53 - 0) by lia.
    replace (Z.pos p) with (n * 2 ^ (53 - d) * 2 ^ 0)
      by (rewrite <- Hnk; replace (53 - d) with k by lia; simpl; lia).
    apply binary_round_aux_exact; lia.
  - replace (- k) with (d - 53 - Z.pos j) by lia.
    replace (Z.pos p) with (n * 2 ^ (53 - d) * 2 ^ Z.pos j).
    + apply binary_round_aux_exact; lia.
    + rewrite <- Hnk, <- Z.mul_assoc, <- Z.pow_add_r by lia. do 2 f_equal. lia.
  - rewrite pos_iter_xO, <- Hnk.
    replace (d + k + - k - 53) with (d - 53 - 0) by lia.
    replace (n * 2 ^ k * 2 ^ Z.pos j) with (n * 2 ^ (53 - d) * 2 ^ 0).
    + apply binary_round_aux_exact; lia.
    + rewrite <- !Z.mul_assoc, <- !Z.pow_add_r by lia. do 2 f_equal. lia.
Qed.

Lemma of_int_exact (n : Z) : 0 < n < 2 ^ 53 -> Float64.of_int n = exactInt n.
Proof.
  intros Hn. rewrite <- (binary_normalize_exact n 0) by lia.
  unfold Float64.of_int. f_equal. simpl. lia.
Qed.

Lemma exactInt_mantissa (n : Z) :
  0 < n < 2 ^ 53 ->
  Z.pos (Z.to_pos (n * 2 ^ (53 - Zdigits2 n))) = n * 2 ^ (53 - Zdigits2 n) /\
  0 < Zdigits2 n <= 53.
Proof.
  intros Hn. destruct (Zdigits2_bounds n ltac:(lia)) as [Hd0 _].
  assert (Hd : Zdigits2 n <= 53) by (apply Zdigits2_le; lia).
  assert (0 < 2 ^ (53 - Zdigits2 n)) by (apply Z.pow_pos_nonneg; lia).
  split; [|lia]. apply Z2Pos.id. nia.
Qed.

Lemma shl_align_value (m : positive) (e ez : Z) :
  ez <= e -> Z.pos (fst (shl_align m e ez)) = Z.pos m * 2 ^ (e - ez).
Proof.
  intros H. unfold shl_align. destruct (ez - e) as [|d|d] eqn:Hd; cbn [fst].
  - replace (e - ez) with 0 by lia. simpl. lia.
  - lia.
  - rewrite pos_iter_xO. do 2 f_equal. lia.
Qed.

(** The aligned mantissa of the representation of [n], at an exponent [ez]
    that is not above its own. *)
Lemma exactInt_aligned (n ez : Z) :
  0 < n < 2 ^ 53 -> ez <= Zdigits2 n - 53 ->
  Z.pos (fst (shl_align (Z.to_pos (n * 2 ^ (53 - Zdigits2 n))) (Zdigits2 n - 53) ez))
  = n * 2 ^ (- ez).
Proof.
  intros Hn Hez. destruct (exactInt_mantissa n Hn) as [Hm Hd].
  rewrite shl_align_value, Hm by lia.
  rewrite <- Z.mul_assoc, <- Z.pow_add_r by lia. do 2 f_equal. lia.
Qed.

Lemma add_exactInt (a b : Z) :
  0 < a -> 0 < b -> a + b < 2 ^ 53 ->
  Float64.add (exactInt a) (exactInt b) = exactInt (a + b).
Proof.
  intros Ha Hb Hab. unfold Float64.add, exactInt at 1 2. cbn [SFadd cond_Zopp].
  destruct (exactInt_mantissa a ltac:(lia)) as [_ Hda].
  destruct (exactInt_mantissa b ltac:(lia)) as [_ Hdb].
  set (ez := Z.min (Zdigits2 a - 53) (Zdigits2 b - 53)).
  rewrite !exactInt_aligned by lia.
  rewrite <- Z.mul_add_distr_r.
  pose proof (binary_normalize_exact (a + b) (- ez) ltac:(lia) ltac:(lia)) as H.
  by rewrite Z.opp_involutive in H.
Qed.

Lemma sub_exactInt (a b : Z) :
  0 < a -> a < b < 2 ^ 53 ->
  Float64.sub (exactInt b) (exactInt a) = exactInt (b - a).
Proof.
  intros Ha Hb. unfold Float64.sub, exactInt at 1 2. cbn [SFsub cond_Zopp].
  destruct (exactInt_mantissa a ltac:(lia)) as [_ Hda].
  destruct (exactInt_mantissa b ltac:(lia)) as [_ Hdb].
  set (ez := Z.min (Zdigits2 b - 53) (Zdigits2 a - 53)).
  rewrite !exactInt_aligned by lia.
  rewrite <- Z.mul_sub_distr_r.
  pose proof (binary_normalize_exact (b - a) (- ez) ltac:(lia) ltac:(lia)) as H.
  by rewrite Z.opp_involutive in H.
Qed.

Lemma sub_of_int (a b : Z) :
  0 <= a -> a < b < 2 ^ 53 ->
  Float64.sub (Float64.of_int b) (Float64.of_int a) = Float64.of_int (b - a).
Proof.
  intros Ha Hb. destruct (Z.eq_dec a 0) as [->|Hna].
  - rewrite Z.sub_0_r. apply sub_zero_r.
  - rewrite !of_int_exact by lia. apply sub_exactInt; lia.
Qed.

Lemma add_of_int (a b : Z) :
  0 < a -> 0 < b -> a + b < 2 ^ 53 ->
  Float64.add (Float64.of_int a) (Float64.of_int b) = Float64.of_int (a + b).
Proof. intros Ha Hb Hab. rewrite !of_int_exact by lia. by apply add_exactInt. Qed.

Lemma Zdigits2_mono (a b : Z) : 0 < a -> a <= b -> Zdigits2 a <= Zdigits2 b.
Proof.
  intros Ha Hab. destruct (Zdigits2_bounds a Ha) as [_ [Hlo _]].
  destruct (Zdigits2_bounds b ltac:(lia)) as [Hdb [_ Hhi]].
  assert (Zdigits2 a - 1 < Zdigits2 b) by (apply (Z.pow_lt_mono_r_iff 2); lia).
  lia.
Qed.

Lemma ltb_of_int (a b : Z) :
  0 <= a -> a < b < 2 ^ 53 ->
  Float64.ltb (Float64.of_int a) (Float64.of_int b) = true.
Proof.
  intros Ha Hb. rewrite (of_int_exact b) by lia.
  destruct (Z.eq_dec a 0) as [->|Hna]; [done|].
  rewrite (of_int_exact a) by lia.
  unfold Float64.ltb, SFltb, exactInt. cbn [SFcompare].
  pose proof (Zdigits2_mono a b ltac:(lia) ltac:(lia)) as Hd.
  destruct (exactInt_mantissa a ltac:(lia)) as [Hma Hda].
  destruct (exactInt_mantissa b ltac:(lia)) as [Hmb Hdb].
  destruct (Z.compare_spec (Zdigits2 a - 53) (Zdigits2 b - 53)) as [Heq|Hlt|Hgt];
    [|done|lia].
  rewrite Pos.compare_cont_spec. cbn [Pos.switch_Eq].
  change (Pos.compare ?x ?y) with (Z.compare (Z.pos x) (Z.pos y)).
  rewrite Hma, Hmb. replace (Zdigits2 b) with (Zdigits2 a) by lia.
  assert (0 < 2 ^ (53 - Zdigits2 a)) by (apply Z.pow_pos_nonneg; lia).
  destruct (Z.compare_spec (a * 2 ^ (53 - Zdigits2 a)) (b * 2 ^ (53 - Zdigits2 a)));
    [nia|done|nia].
Qed.

Lemma add_zero_exactInt (n : Z) :
  Float64.add Float64.zero (exactInt n) = exactInt n.
Proof. reflexivity. Qed.

(** ** Totality and the guard of the division *)

(** On a history of buckets [CalculateRate] returns a float (no index is
    out of range); when the buckets at the start and end indices have equal
    timestamps it leaves through the exit that returns 0, which does not
    divide; and whenever it does divide, the time difference is not 0 and its
    conversion to [float64] is a finite number other than zero. *)
Lemma CalculateRate_returns (q : Queue) (now lookbackSeconds : Z)
    (partitionName vertexName : string) :
  (exists rate,
     CalculateRate q now lookbackSeconds partitionName vertexName = Some rate) /\
  (forall s e cs ce,
     findStartIndex now lookbackSeconds (Items q) = Some s ->
     findEndIndex (Items q) = Some e ->
     index (Items q) s = Some cs -> index (Items q) e = Some ce ->
     timestamp ce = timestamp cs ->
     CalculateRate_exit q now lookbackSeconds partitionName
       = Some (ExitZeroTimeDiff s e) /\
     CalculateRate q now lookbackSeconds partitionName vertexName
       = Some Float64.zero) /\
  (forall s e delta timeDiff,
     CalculateRate_exit q now lookbackSeconds partitionName
       = Some (ExitQuotient s e delta timeDiff) ->
     timeDiff <> 0 /\
     exists m ex, Float64.of_int timeDiff = S754_finite (timeDiff <? 0) m ex).
Proof.
  unfold CalculateRate.
  pose proof (CalculateRate_exit_cases q now lookbackSeconds partitionName) as Hcases.
  cbv zeta in Hcases. split_and!.
  - destruct Hcases as [[_ ->] | (_ & s & e & _ & _ & _ & _ & Hexit)]; [by eexists|].
    destruct Hexit as [[_ ->] | (_ & _ & cs & ce & _ & _ & [[_ ->] | [_ ->]])];
      by eexists.
  - intros s e cs ce Hs He Hcs Hce Heq.
    apply index_Some in Hcs as Hs0. apply index_Some in Hce as He0.
    destruct Hcases as [[Hshort _] | (_ & s' & e' & Hs' & He' & _ & _ & Hexit)].
    + rewrite findStartIndex_short in Hs by lia. unfold IndexNotFound in Hs.
      simplify_eq; lia.
    + rewrite Hs in Hs'. rewrite He in He'. simplify_eq.
      destruct Hexit as [[[?|?] _] | (_ & _ & cs' & ce' & Hcs' & Hce' & Hexit)];
        [unfold IndexNotFound in *; lia..|].
      rewrite Hcs in Hcs'. rewrite Hce in Hce'. simplify_eq.
      rewrite Heq, Int64_sub_diag in Hexit.
      destruct Hexit as [[_ ->] | [? _]]; done.
  - intros s e delta timeDiff Hx.
    destruct Hcases as [[_ Hexit] | (_ & s' & e' & _ & _ & _ & _ & Hexit)];
      [rewrite Hexit in Hx; by simplify_eq|].
    destruct Hexit as [[_ Hexit] | (_ & _ & cs & ce & _ & _ & [[_ Hexit] | [Hnz Hexit]])];
      rewrite Hexit in Hx; simplify_eq.
    split; [done|]. apply of_int_finite; [done|]. apply Int64_sub_in_range.
Qed.

(** The rate query on a slice of pointers without nil entries is the rate
    query on the buckets. *)
Lemma Ptr_index_pointers (l : History) (i : Z) :
  index (Some <$> l) i = Some <$> index l i.
Proof. unfold index. destruct (i <? 0); [done|]. apply list_lookup_fmap. Qed.

Lemma Ptr_findStartIndex_loop_pointers (now lookbackSeconds : Z) (l : History)
    (k : nat) (s0 : Z) :
  Ptr.findStartIndex_loop now lookbackSeconds (Some <$> l) k s0
  = findStartIndex_loop now lookbackSeconds l k s0.
Proof.
  revert s0. induction k as [|i IH]; intros s0; [done|].
  cbn [Ptr.findStartIndex_loop findStartIndex_loop]. rewrite list_lookup_fmap.
  destruct (l !! i) as [c|]; [|done]. cbn [fmap option_fmap option_map mbind option_bind].
  destruct (_ && _); [apply IH|done].
Qed.

Lemma Ptr_findStartIndex_pointers (now lookbackSeconds : Z) (l : History) :
  Ptr.findStartIndex now lookbackSeconds (Some <$> l)
  = findStartIndex now lookbackSeconds l.
Proof.
  unfold Ptr.findStartIndex, findStartIndex. rewrite length_fmap.
  destruct (_ <? 2); [done|]. rewrite Ptr_index_pointers.
  destruct (index l _) as [c|]; [|done].
  cbn [fmap option_fmap option_map mbind option_bind].
  destruct (_ <? _); [done|]. apply Ptr_findStartIndex_loop_pointers.
Qed.

Lemma Ptr_findEndIndex_pointers (l : History) :
  Ptr.findEndIndex (Some <$> l) = findEndIndex l.
Proof.
  unfold Ptr.findEndIndex, findEndIndex. rewrite length_fmap.
  induction (length l) as [|i IH]; [done|].
  cbn [Ptr.findEndIndex_loop findEndIndex_loop]. rewrite list_lookup_fmap.
  destruct (l !! i) as [c|]; [|done]. cbn [fmap option_fmap option_map mbind option_bind].
  by destruct (IsWindowClosed c).
Qed.

Lemma Ptr_sumDeltas_pointers (l : History) (partitionName : string)
    (fuel : nat) (i : Z) (delta : float64) :
  Ptr.sumDeltas (Some <$> l) partitionName fuel i delta
  = sumDeltas l partitionName fuel i delta.
Proof.
  revert i delta. induction fuel as [|fuel IH]; intros i delta; [done|].
  cbn [Ptr.sumDeltas sumDeltas]. rewrite Ptr_index_pointers.
  destruct (index l (i + 1)) as [c|]; [|done].
  cbn [fmap option_fmap option_map mbind option_bind]. apply IH.
Qed.

Lemma Ptr_CalculateRate_exit_pointers (q : Queue) (now lookbackSeconds : Z)
    (partitionName : string) :
  Ptr.CalculateRate_exit (Ptr.pointers q) now lookbackSeconds partitionName
  = CalculateRate_exit q now lookbackSeconds partitionName.
Proof.
  unfold Ptr.CalculateRate_exit, CalculateRate_exit, Ptr.pointers, Items.
  cbn [elements]. rewrite length_fmap.
  destruct (_ <=? 1)%nat; [done|].
  rewrite Ptr_findStartIndex_pointers, Ptr_findEndIndex_pointers.
  destruct (findStartIndex _ _ _) as [s|]; [|done].
  destruct (findEndIndex _) as [e|]; [|done]. cbn [mbind option_bind].
  destruct (_ || _); [done|]. rewrite !Ptr_index_pointers.
  destruct (index (elements q) e) as [ce|]; [|done].
  cbn [fmap option_fmap option_map mbind option_bind].
  destruct (index (elements q) s) as [cs|]; [|done].
  cbn [fmap option_fmap option_map mbind option_bind].
  destruct (_ =? 0); [done|]. by rewrite Ptr_sumDeltas_pointers.
Qed.

Lemma Ptr_no_nil_pointers (q : Ptr.Queue) :
  Forall is_Some (Items q) -> exists q', q = Ptr.pointers q'.
Proof.
  destruct q as [l n]. unfold Items. cbn [elements]. intros H.
  assert (Hl : exists l', l = Some <$> l').
  { induction H as [|p l [b ->] _ (l' & ->)]; [by exists []|]. by exists (b :: l'). }
  destruct Hl as (l' & ->). by exists {| elements := l'; size := n |}.
Qed.

(** C8, as amended: on a history that holds no nil entry [CalculateRate]
    returns a float (no index is out of range and no nil pointer is read).
    On every history, when the buckets at the start and end indices have
    equal timestamps it leaves through the exit that returns 0, which does
    not divide; and whenever it does divide, the time difference is not 0
    and its conversion to [float64] is a finite number other than zero. *)
Theorem CalculateRate_total (q : Ptr.Queue) (now lookbackSeconds : Z)
    (partitionName vertexName : string) :
  (Forall is_Some (Items q) ->
   exists rate,
     Ptr.CalculateRate q now lookbackSeconds partitionName vertexName = Some rate) /\
  (forall s e cs ce,
     Ptr.findStartIndex now lookbackSeconds (Items q) = Some s ->
     Ptr.findEndIndex (Items q) = Some e ->
     index (Items q) s = Some (Some cs) -> index (Items q) e = Some (Some ce) ->
     timestamp ce = timestamp cs ->
     Ptr.CalculateRate_exit q now lookbackSeconds partitionName
       = Some (ExitZeroTimeDiff s e) /\
     Ptr.CalculateRate q now lookbackSeconds partitionName vertexName
       = Some Float64.zero) /\
  (forall s e delta timeDiff,
     Ptr.CalculateRate_exit q now lookbackSeconds partitionName
       = Some (ExitQuotient s e delta timeDiff) ->
     timeDiff <> 0 /\
     exists m ex, Float64.of_int timeDiff = S754_finite (timeDiff <? 0) m ex).
Proof.
  split_and!.
  - intros Hnil. destruct (Ptr_no_nil_pointers q Hnil) as (q' & ->).
    unfold Ptr.CalculateRate. rewrite Ptr_CalculateRate_exit_pointers.
    exact (proj1 (CalculateRate_returns q' now lookbackSeconds partitionName
                    vertexName)).
  - intros s e cs ce Hs He Hcs Hce Heq.
    apply index_Some in Hcs as Hs0. apply index_Some in Hce as He0.
    assert (Hexit : Ptr.CalculateRate_exit q now lookbackSeconds partitionName
                    = Some (ExitZeroTimeDiff s e)).
    { unfold Ptr.CalculateRate_exit.
      destruct (Nat.leb_spec (length (Items q)) 1) as [Hshort|_].
      - unfold Ptr.findStartIndex in Hs.
        destruct (Z.ltb_spec (Z.of_nat (length (Items q))) 2); [|lia].
        unfold IndexNotFound in Hs. simplify_eq; lia.
      - rewrite Hs, He. cbn [mbind option_bind]. unfold IndexNotFound.
        destruct (Z.eqb_spec s (-1)); [lia|]. destruct (Z.eqb_spec e (-1)); [lia|].
        cbn [orb]. rewrite Hce, Hcs. cbn [mbind option_bind].
        by rewrite Heq, Int64_sub_diag. }
    split; [exact Hexit|]. unfold Ptr.CalculateRate. by rewrite Hexit.
  - intros s e delta timeDiff Hx. unfold Ptr.CalculateRate_exit in Hx.
    destruct (length (Items q) <=? 1)%nat; [done|].
    destruct (Ptr.findStartIndex _ _ _) as [s'|]; [|done].
    destruct (Ptr.findEndIndex _) as [e'|]; [|done]. cbn [mbind option_bind] in Hx.
    destruct (_ || _); [done|].
    destruct (index (Items q) e') as [[ce|]|]; [|done..].
    destruct (index (Items q) s') as [[cs|]|]; [|done..].
    cbn [mbind option_bind] in Hx.
    destruct (Z.eqb_spec (Int64.sub (timestamp ce) (timestamp cs)) 0) as [|Hnz];
      [done|].
    destruct (Ptr.sumDeltas _ _ _ _ _) as [d|]; [|done].
    cbn [mbind option_bind] in Hx. simplify_eq.
    split; [done|]. apply of_int_finite; [done|]. apply Int64_sub_in_range.
Qed.

(** C8 as stated fails: the history [nilInHistory] has three entries, the
    second-to-last of which is nil; [findStartIndex] reads its timestamp and
    the call panics. *)
Lemma CalculateRate_nil_entry :
  length (Items nilInHistory) = 3%nat /\
  Ptr.findStartIndex 120 20 (Items nilInHistory) = None /\
  Ptr.CalculateRate nilInHistory 120 20 "p1" "vertex" = None /\
  ~ (exists rate, Ptr.CalculateRate nilInHistory 120 20 "p1" "vertex" = Some rate).
Proof.
  split_and!; try reflexivity. intros (rate & H). discriminate.
Qed.

(** ** The sign of the rate *)

Lemma foldl_add_nonneg (l : list float64) (acc : float64) :
  Float64.nonneg acc -> Forall Float64.nonneg l ->
  Float64.nonneg (foldl Float64.add acc l).
Proof.
  revert acc. induction l as [|x l IH]; intros acc Hacc Hl; [done|].
  apply Forall_cons in Hl as [Hx Hl]. simpl. apply IH; [|done].
  by apply add_nonneg.
Qed.

Lemma fsum_nonneg (l : list float64) :
  Forall Float64.nonneg l -> Float64.nonneg (fsum l).
Proof. by apply foldl_add_nonneg. Qed.

Lemma map_get_nonneg (m : gomap float64) (k : string) :
  Forall (fun '(_, v) => Float64.nonneg v) m ->
  Float64.nonneg (map_get Float64.zero m k).
Proof.
  induction m as [|[k' v] m IH]; intros Hm; simpl; [done|].
  apply Forall_cons in Hm as [Hv Hm]. destruct (String.eqb k' k); auto.
Qed.

Lemma closedDeltaSum_nonneg (counts : History) (partitionName : string) (s e : Z) :
  deltasNonneg counts ->
  Float64.nonneg (closedDeltaSum counts partitionName s e).
Proof.
  intros Hd. apply fsum_nonneg, Forall_forall. intros x Hx.
  apply list_elem_of_omap in Hx as (i & _ & Hi). unfold closedDeltaAt in Hi.
  destruct (index counts (i + 1)) as [c|] eqn:Hc; [|done]. simpl in Hi.
  destruct (IsWindowClosed c); [|done]. simplify_eq.
  apply index_Some in Hc as [_ Hc]. apply list_elem_of_lookup_2 in Hc.
  unfold deltasNonneg in Hd. rewrite Forall_forall in Hd. specialize (Hd c Hc).
  apply fsum_nonneg. unfold podDeltaValues. apply Forall_fmap.
  eapply Forall_impl; [exact Hd|]. intros [pod pc] Hpc. simpl.
  by apply map_get_nonneg.
Qed.

(** C10, as amended: when every delta-snapshot value of the history is at
    least 0 and the timestamps are not negative and do not decrease along the
    history, [CalculateRate] returns a value that is at least 0.  And on
    every history, when the end index found is before the start index, the
    summation range is empty, the delta is 0 and the value returned is a
    zero. *)
Theorem CalculateRate_nonneg (q : Queue) (now lookbackSeconds : Z)
    (partitionName vertexName : string) :
  (deltasNonneg (Items q) -> timestampsOrdered (Items q) ->
   exists rate,
     CalculateRate q now lookbackSeconds partitionName vertexName = Some rate /\
     Float64.nonneg rate) /\
  (forall s e,
     findStartIndex now lookbackSeconds (Items q) = Some s ->
     findEndIndex (Items q) = Some e -> e < s ->
     closedDeltaSum (Items q) partitionName s e = Float64.zero /\
     exists rate,
       CalculateRate q now lookbackSeconds partitionName vertexName = Some rate /\
       Float64.eqb rate Float64.zero = true).
Proof.
  unfold CalculateRate.
  pose proof (CalculateRate_exit_cases q now lookbackSeconds partitionName) as Hcases.
  cbv zeta in Hcases. split.
  - intros Hd Hts.
    destruct Hcases as [[_ ->] | (_ & s & e & _ & _ & _ & _ & Hexit)];
      [by eexists|].
    destruct Hexit as [[_ ->] | (Hs0 & He0 & cs & ce & Hcs & Hce & Hexit)];
      [by eexists|].
    destruct Hexit as [[_ ->] | [Hnz ->]]; [by eexists|].
    eexists. split; [reflexivity|]. simpl.
    destruct (of_int_finite (Int64.sub (timestamp ce) (timestamp cs)) Hnz
                (Int64_sub_in_range _ _)) as (m & ex & Hfin).
    rewrite Hfin.
    destruct (Z.le_gt_cases e s) as [Hle|Hlt].
    + unfold closedDeltaSum. rewrite seqZ_nil by lia. reflexivity.
    + apply index_Some in Hcs as [_ Hcs]. apply index_Some in Hce as [_ Hce].
      destruct (Hts (Z.to_nat s) (Z.to_nat e) cs ce ltac:(lia) Hcs Hce)
        as (Hlo & Hmono & Hhi).
      rewrite Int64_sub_nonneg in Hfin, Hnz |- * by lia.
      destruct (Z.ltb_spec (timestamp ce - timestamp cs) 0); [lia|].
      apply div_nonneg. by apply closedDeltaSum_nonneg.
  - intros s e Hs He Hlt.
    assert (Hsum : closedDeltaSum (Items q) partitionName s e = Float64.zero).
    { unfold closedDeltaSum. by rewrite seqZ_nil by lia. }
    split; [exact Hsum|].
    destruct Hcases as [[_ ->] | (_ & s' & e' & Hs' & He' & _ & _ & Hexit)];
      [by eexists|].
    rewrite Hs in Hs'. rewrite He in He'. simplify_eq.
    destruct Hexit as [[_ ->] | (Hs0 & He0 & cs & ce & Hcs & Hce & Hexit)];
      [by eexists|].
    destruct Hexit as [[_ ->] | [Hnz ->]]; [by eexists|].
    eexists. split; [reflexivity|]. simpl. rewrite Hsum.
    destruct (of_int_finite (Int64.sub (timestamp ce) (timestamp cs)) Hnz
                (Int64_sub_in_range _ _)) as (m & ex & ->).
    reflexivity.
Qed.

(** C10 as stated fails: the history of [outOfOrderQueue] holds only deltas
    that are at least 0, and [CalculateRate] returns -1 on it: the end bucket
    carries an older timestamp than the start bucket. *)
Lemma CalculateRate_negative :
  exists q rate,
    outOfOrderQueue = Some q /\
    deltasNonneg (Items q) /\
    CalculateRate q 120 20 "p1" "v" = Some rate /\
    rate = Float64.of_int (-1) /\
    Float64.ltb rate Float64.zero = true /\
    ~ Float64.nonneg rate.
Proof.
  eexists _, _. split; [by vm_compute|]. split_and!.
  - repeat (constructor; try reflexivity).
  - by vm_compute.
  - by vm_compute.
  - by vm_compute.
  - by vm_compute.
Qed.

(** ** Three reports in a row *)

Lemma UpdateCount_fresh (q : Queue) (time : Z) (r : PodReadCount) (items' : History) :
  Forall (fun x => timestamp x <> time) (Items q) ->
  closeMostRecent (Items q) = Some items' ->
  UpdateCount q time r
  = Some (Append (withItems q items') (Update r (NewTimestampedCounts time))).
Proof.
  intros Hnone Hclose. unfold UpdateCount.
  assert (Hfind : list_find (fun i => timestamp i = time) (Items q) = None)
    by (by apply list_find_None).
  by rewrite Hfind, Hclose.
Qed.

Lemma Append_room {T : Type} (q : OverflowQueue T) (x : T) :
  (length (elements q) < size q)%nat ->
  Append q x = {| elements := elements q ++ [x]; size := size q |}.
Proof.
  intros H. unfold Append. rewrite length_app. simpl.
  destruct (Nat.ltb_spec (size q) (length (elements q) + 1)); [lia|done].
Qed.

Lemma podDelta_zero (c : float64) : podDelta c Float64.zero = c.
Proof. unfold podDelta. rewrite sub_zero_r. by destruct (Float64.ltb c Float64.zero). Qed.

Lemma podDelta_increase (c c' : float64) :
  Float64.ltb c c' = true -> podDelta c' c = Float64.sub c' c.
Proof. intros H. unfold podDelta. by rewrite (ltb_antisym _ _ H). Qed.

(** The history after three reports of one pod with increasing timestamps
    and counts, in a queue with room for three buckets. *)
Lemma ingest3_items (capacity : nat) (pod partition : string)
    (t0 t1 t2 : Z) (c0 c1 c2 : float64) :
  (3 <= capacity)%nat -> t0 < t1 < t2 -> Float64.ltb c0 c1 = true ->
  ingest3 capacity pod partition t0 t1 t2 c0 c1 c2
  = Some {| elements :=
              [ {| timestamp := t0;
                   podPartitionCount := [(pod, [(partition, c0)])];
                   podPartitionDelta := [(pod, [(partition, c0)])];
                   isWindowClosed := true |};
                {| timestamp := t1;
                   podPartitionCount := [(pod, [(partition, c1)])];
                   podPartitionDelta := [(pod, [(partition, Float64.sub c1 c0)])];
                   isWindowClosed := true |};
                {| timestamp := t2;
                   podPartitionCount := [(pod, [(partition, c2)])];
                   podPartitionDelta := [];
                   isWindowClosed := false |} ];
            size := capacity |}.
Proof.
  intros Hcap Ht Hc. unfold ingest3.
  rewrite (UpdateCount_fresh _ _ _ []) by done.
  rewrite Append_room by (simpl; lia). cbn [mbind option_bind].
  erewrite UpdateCount_fresh;
    [|repeat constructor; simpl; lia|apply closeMostRecent_one].
  rewrite Append_room by (simpl; lia). cbn [mbind option_bind].
  erewrite UpdateCount_fresh;
    [|repeat constructor; simpl; lia|apply (closeMostRecent_more [])].
  rewrite Append_room by (simpl; lia).
  unfold CloseWindow, prevCount. cbn -[podDelta String.eqb].
  rewrite !String.eqb_refl. cbn -[podDelta String.eqb].
  rewrite !String.eqb_refl, podDelta_zero, (podDelta_increase _ _ Hc).
  reflexivity.
Qed.

Lemma closedDeltaSum_single (b0 b1 b2 : TimestampedCounts) (partitionName : string) :
  IsWindowClosed b1 = true ->
  closedDeltaSum [b0; b1; b2] partitionName 0 1
  = Float64.add Float64.zero (calculatePartitionDelta b1 partitionName).
Proof.
  intros Hclosed. unfold closedDeltaSum, closedDeltaAt. simpl.
  rewrite Hclosed. by rewrite calculatePartitionDelta_fsum.
Qed.

(** [x == y] for two floats that differ at most in the sign of a zero. *)
Lemma eqb_add_zero_div (d : float64) (s : bool) (m : positive) (e : Z) :
  d <> S754_nan ->
  Float64.eqb (Float64.div (Float64.add Float64.zero (Float64.add Float64.zero d))
                 (S754_finite s m e))
              (Float64.div d (S754_finite s m e)) = true.
Proof.
  intros Hd. rewrite !add_zero_l.
  destruct d as [sd|sd| |sd md ed]; try done.
  - apply eqb_refl. by destruct sd.
  - apply eqb_refl. apply div_finite_not_nan. done.
Qed.

(** X18: while the bucket of the third report is open it adds nothing: for
    counts [c0 < c1 < c2] reported at timestamps [t0], [t0 + step],
    [t0 + 2 step] into a queue with room for three buckets, [CalculateRate]
    with a lookback of [2 step] or more at [now = t0 + 2 step] equals
    [(c1 - c0) / (t1 - t0)]. *)
Theorem ingest3_open_rate (capacity : nat) (pod partition vertexName : string)
    (t0 step lookbackSeconds : Z) (c0 c1 c2 : float64) :
  (3 <= capacity)%nat ->
  0 <= t0 -> 0 < step -> t0 + 2 * step <= Int64.max_signed ->
  2 * step <= lookbackSeconds ->
  Float64.ltb c0 c1 = true -> Float64.ltb c1 c2 = true ->
  exists q b0 b1 b2 rate,
    ingest3 capacity pod partition t0 (t0 + step) (t0 + 2 * step) c0 c1 c2
      = Some q /\
    Items q = [b0; b1; b2] /\
    timestamp b0 = t0 /\ timestamp b1 = t0 + step /\
    IsWindowClosed b1 = true /\ IsWindowClosed b2 = false /\
    PodDeltaCountSnapshot b1 = [(pod, [(partition, Float64.sub c1 c0)])] /\
    CalculateRate q (t0 + 2 * step) lookbackSeconds partition vertexName
      = Some rate /\
    Float64.eqb rate
      (Float64.div (Float64.sub c1 c0)
         (Float64.of_int (timestamp b1 - timestamp b0))) = true.
Proof.
  intros Hcap Ht0 Hstep Hmax Hlb Hc01 Hc12.
  eexists _, _, _, _, _. split; [by apply ingest3_items; [|lia|]|].
  split; [reflexivity|]. cbn [timestamp IsWindowClosed isWindowClosed
                              PodDeltaCountSnapshot podPartitionDelta].
  split_and!; try reflexivity.
  + unfold CalculateRate.
    erewrite (CalculateRate_exit_quotient _ _ _ _ 0 1); [reflexivity|..].
    * (* the start index *)
      cbn [Items elements].
      erewrite findStartIndex_unfold; [|simpl; lia|reflexivity].
      cbn [length Nat.sub timestamp]. rewrite Int64_sub_nonneg by lia.
      destruct (Z.ltb_spec lookbackSeconds (t0 + 2 * step - (t0 + step))); [lia|].
      cbn [findStartIndex_loop lookup list_lookup mbind option_bind
           timestamp IsWindowClosed isWindowClosed].
      rewrite !Int64_sub_nonneg by lia.
      destruct (Z.leb_spec (t0 + 2 * step - (t0 + step)) lookbackSeconds); [|lia].
      destruct (Z.leb_spec (t0 + 2 * step - t0) lookbackSeconds); [|lia].
      reflexivity.
    * reflexivity.
    * discriminate.
    * discriminate.
    * reflexivity.
    * reflexivity.
    * cbn [timestamp]. rewrite Int64_sub_nonneg by lia. lia.
  + cbn [exitValue Items elements timestamp].
    rewrite closedDeltaSum_single by reflexivity.
    unfold calculatePartitionDelta.
    cbn [PodDeltaCountSnapshot podPartitionDelta foldl map_get].
    rewrite String.eqb_refl, Int64_sub_nonneg by lia.
    destruct (of_int_finite (t0 + step - t0) ltac:(lia)) as (m & e & ->).
    { unfold Int64.max_signed in Hmax. lia. }
    apply eqb_add_zero_div. by apply sub_lt_not_nan.
Qed.

Lemma ingest3_then_items (capacity : nat) (pod partition : string)
    (t0 t1 t2 t3 : Z) (c0 c1 c2 : float64) (r3 : PodReadCount) :
  (4 <= capacity)%nat -> t0 < t1 < t2 -> t2 < t3 ->
  Float64.ltb c0 c1 = true -> Float64.ltb c1 c2 = true ->
  exists q3,
    ingest3 capacity pod partition t0 t1 t2 c0 c1 c2 = Some q3 /\
    UpdateCount q3 t3 r3
    = Some {| elements :=
                [ {| timestamp := t0;
                     podPartitionCount := [(pod, [(partition, c0)])];
                     podPartitionDelta := [(pod, [(partition, c0)])];
                     isWindowClosed := true |};
                  {| timestamp := t1;
                     podPartitionCount := [(pod, [(partition, c1)])];
                     podPartitionDelta := [(pod, [(partition, Float64.sub c1 c0)])];
                     isWindowClosed := true |};
                  {| timestamp := t2;
                     podPartitionCount := [(pod, [(partition, c2)])];
                     podPartitionDelta := [(pod, [(partition, Float64.sub c2 c1)])];
                     isWindowClosed := true |};
                  Update r3 (NewTimestampedCounts t3) ];
              size := capacity |}.
Proof.
  intros Hcap Ht Ht3 Hc01 Hc12. eexists.
  split; [apply ingest3_items; [lia|done|done]|].
  erewrite UpdateCount_fresh;
    [|repeat constructor; simpl; lia
     |apply (closeMostRecent_more [_] _ _)].
  rewrite Append_room by (simpl; lia).
  unfold CloseWindow, prevCount. cbn -[podDelta String.eqb Update].
  rewrite !String.eqb_refl. cbn -[podDelta String.eqb Update].
  rewrite !String.eqb_refl, (podDelta_increase _ _ Hc12).
  reflexivity.
Qed.

Lemma closedDeltaSum_two (b0 b1 b2 b3 : TimestampedCounts) (partitionName : string) :
  IsWindowClosed b1 = true -> IsWindowClosed b2 = true ->
  closedDeltaSum [b0; b1; b2; b3] partitionName 0 2
  = Float64.add (Float64.add Float64.zero (calculatePartitionDelta b1 partitionName))
      (calculatePartitionDelta b2 partitionName).
Proof.
  intros H1 H2. unfold closedDeltaSum, closedDeltaAt. simpl.
  rewrite H1, H2. by rewrite !calculatePartitionDelta_fsum.
Qed.

(** The rate once a fourth report has closed the bucket of the third one:
    the deltas of the second and third bucket, added as the loops add them,
    over the time between the first and the third bucket. *)
Lemma ingest3_closed_rate (capacity : nat) (pod partition vertexName : string)
    (t0 step t3 now lookbackSeconds : Z) (c0 c1 c2 : float64) (r3 : PodReadCount) :
  (4 <= capacity)%nat ->
  0 <= t0 -> 0 < step -> t0 + 2 * step < t3 <= Int64.max_signed ->
  0 <= now <= Int64.max_signed -> now - t0 <= lookbackSeconds ->
  Float64.ltb c0 c1 = true -> Float64.ltb c1 c2 = true ->
  exists q3 q4 b0 b1 b2 b3,
    ingest3 capacity pod partition t0 (t0 + step) (t0 + 2 * step) c0 c1 c2 = Some q3 /\
    UpdateCount q3 t3 r3 = Some q4 /\
    Items q4 = [b0; b1; b2; b3] /\
    timestamp b0 = t0 /\ timestamp b1 = t0 + step /\ timestamp b2 = t0 + 2 * step /\
    timestamp b3 = t3 /\
    IsWindowClosed b1 = true /\ IsWindowClosed b2 = true /\ IsWindowClosed b3 = false /\
    PodDeltaCountSnapshot b1 = [(pod, [(partition, Float64.sub c1 c0)])] /\
    PodDeltaCountSnapshot b2 = [(pod, [(partition, Float64.sub c2 c1)])] /\
    CalculateRate q4 now lookbackSeconds partition vertexName
    = Some (Float64.div
              (Float64.add
                 (Float64.add Float64.zero
                    (Float64.add Float64.zero (Float64.sub c1 c0)))
                 (Float64.add Float64.zero (Float64.sub c2 c1)))
              (Float64.of_int (t0 + 2 * step - t0))).
Proof.
  intros Hcap Ht0 Hstep Ht3 Hnow Hlb Hc01 Hc12.
  destruct (ingest3_then_items capacity pod partition t0 (t0 + step) (t0 + 2 * step)
              t3 c0 c1 c2 r3) as (q3 & Hq3 & Hq4); try done; try lia.
  eexists q3, _, _, _, _, _. split; [exact Hq3|]. split; [exact Hq4|].
  split; [reflexivity|].
  cbn [timestamp IsWindowClosed isWindowClosed PodDeltaCountSnapshot
       podPartitionDelta Update NewTimestampedCounts].
  split_and!; try reflexivity.
  unfold CalculateRate.
  erewrite (CalculateRate_exit_quotient _ _ _ _ 0 2); cycle 1.
  - cbn [Items elements].
    erewrite findStartIndex_unfold; [|simpl; lia|reflexivity].
    cbn [length Nat.sub timestamp]. rewrite Int64_sub_nonneg by lia.
    destruct (Z.ltb_spec lookbackSeconds (now - (t0 + 2 * step))); [lia|].
    cbn [findStartIndex_loop lookup list_lookup mbind option_bind
         timestamp IsWindowClosed isWindowClosed].
    rewrite !Int64_sub_nonneg by lia.
    destruct (Z.leb_spec (now - (t0 + 2 * step)) lookbackSeconds); [|lia].
    destruct (Z.leb_spec (now - (t0 + step)) lookbackSeconds); [|lia].
    destruct (Z.leb_spec (now - t0) lookbackSeconds); [|lia].
    reflexivity.
  - reflexivity.
  - discriminate.
  - discriminate.
  - reflexivity.
  - reflexivity.
  - cbn [timestamp]. rewrite Int64_sub_nonneg by lia. lia.
  - cbn [exitValue Items elements timestamp].
    rewrite closedDeltaSum_two by reflexivity.
    unfold calculatePartitionDelta.
    cbn [PodDeltaCountSnapshot podPartitionDelta foldl map_get].
    by rewrite String.eqb_refl, Int64_sub_nonneg by lia.
Qed.

(** C4, as amended.  The end-to-end example: after the three reports
    [(100, 5)], [(110, 15)], [(120, 30)] for partition [p1], the bucket of
    110 is closed with a delta of 10 and [CalculateRate] with a lookback of
    20 seconds at [now = 120] returns exactly 1 ([threeBuckets] is the
    history after the third report).  In general, for integer counts
    [0 <= n0 < n1 < n2 < 2^53] of one pod reported at timestamps [t0],
    [t0 + step], [t0 + 2 step] into a queue with room for four buckets, once
    a later report, at [t3], has closed the bucket of [t2], the deltas add
    up: [CalculateRate] with a lookback that reaches the bucket of [t0]
    ([now - t0 <= lookbackSeconds]) returns [(n2 - n0) / (t2 - t0)], the
    quotient of the two integers converted to [float64]; the subtraction
    [c2 - c0] of the two counts in [float64] is that same number. *)
Theorem ingest3_rate :
  (exampleQueue = Some threeBuckets /\
   timestamp bucket110 = 110 /\ IsWindowClosed bucket110 = true /\
   PodDeltaCountSnapshot bucket110 = [("pod-0", [("p1", Float64.of_int 10)])] /\
   forall vertexName,
     CalculateRate threeBuckets 120 20 "p1" vertexName = Some (Float64.of_int 1))
  /\
  (forall (capacity : nat) (pod partition vertexName : string)
          (t0 step t3 now lookbackSeconds : Z) (n0 n1 n2 : Z) (r3 : PodReadCount),
     (4 <= capacity)%nat ->
     0 <= t0 -> 0 < step -> t0 + 2 * step < t3 <= Int64.max_signed ->
     0 <= now <= Int64.max_signed -> now - t0 <= lookbackSeconds ->
     0 <= n0 -> n0 < n1 -> n1 < n2 -> n2 < 2 ^ 53 ->
     exists q3 q4 b0 b1 b2 b3,
       ingest3 capacity pod partition t0 (t0 + step) (t0 + 2 * step)
         (Float64.of_int n0) (Float64.of_int n1) (Float64.of_int n2) = Some q3 /\
       UpdateCount q3 t3 r3 = Some q4 /\
       Items q4 = [b0; b1; b2; b3] /\
       timestamp b0 = t0 /\ timestamp b1 = t0 + step /\
       timestamp b2 = t0 + 2 * step /\ timestamp b3 = t3 /\
       IsWindowClosed b1 = true /\ IsWindowClosed b2 = true /\
       IsWindowClosed b3 = false /\
       PodDeltaCountSnapshot b1 = [(pod, [(partition, Float64.of_int (n1 - n0))])] /\
       PodDeltaCountSnapshot b2 = [(pod, [(partition, Float64.of_int (n2 - n1))])] /\
       Float64.sub (Float64.of_int n2) (Float64.of_int n0) = Float64.of_int (n2 - n0) /\
       CalculateRate q4 now lookbackSeconds partition vertexName
       = Some (Float64.div (Float64.of_int (n2 - n0))
                 (Float64.of_int (timestamp b2 - timestamp b0)))).
Proof.
  split.
  - split_and!; by vm_compute.
  - intros capacity pod partition vertexName t0 step t3 now lookbackSeconds
           n0 n1 n2 r3 Hcap Ht0 Hstep Ht3 Hnow Hlb Hn0 Hn01 Hn12 Hn2.
    destruct (ingest3_closed_rate capacity pod partition vertexName t0 step t3 now
                lookbackSeconds (Float64.of_int n0) (Float64.of_int n1)
                (Float64.of_int n2) r3)
      as (q3 & q4 & b0 & b1 & b2 & b3 & Hq3 & Hq4 & Hitems & Hb0 & Hb1 & Hb2 & Hb3
          & Hc1 & Hc2 & Hc3 & Hd1 & Hd2 & Hrate);
      try done; try (apply ltb_of_int; lia).
    rewrite (sub_of_int n0 n1) in Hd1, Hrate by lia.
    rewrite (sub_of_int n1 n2) in Hd2, Hrate by lia.
    rewrite (of_int_exact (n1 - n0)), (of_int_exact (n2 - n1)) in Hrate by lia.
    rewrite !add_zero_exactInt, add_exactInt in Hrate by lia.
    replace (n1 - n0 + (n2 - n1)) with (n2 - n0) in Hrate by lia.
    rewrite <- (of_int_exact (n2 - n0)) in Hrate by lia.
    exists q3, q4, b0, b1, b2, b3. rewrite Hb0, Hb2.
    split_and!; try done. apply sub_of_int; lia.
Qed.

(** C4 as stated fails in its general part.  On the example itself, where
    the bucket of the third report is still open, the rate is 1, while
    [(c2 - c0) / (t2 - t0)] is [25 / 20].  And once a fourth report has
    closed that bucket, the deltas of counts beyond [2^53] do not add up:
    for the counts [1], [2^53 + 2], [2^53 + 4] the rate differs from
    [(c2 - c0) / (t2 - t0)]. *)
Lemma example_rate_not_overall_slope :
  (exists q rate,
     ingest3 100 "pod-0" "p1" 100 (100 + 10) (100 + 2 * 10) f5 f15 f30 = Some q /\
     Float64.ltb f5 f15 = true /\ Float64.ltb f15 f30 = true /\
     CalculateRate q (100 + 2 * 10) 20 "p1" "v" = Some rate /\
     rate = Float64.of_int 1 /\
     Float64.eqb rate
       (Float64.div (Float64.sub f30 f5) (Float64.of_int (100 + 2 * 10 - 100)))
     = false) /\
  (exists q rate,
     ingest4 100 "pod-0" "p1" 100 (100 + 10) (100 + 2 * 10) 130
       bigCount0 bigCount1 bigCount2 bigCount2 = Some q /\
     Float64.ltb bigCount0 bigCount1 = true /\
     Float64.ltb bigCount1 bigCount2 = true /\
     CalculateRate q 130 30 "p1" "v" = Some rate /\
     Float64.eqb rate
       (Float64.div (Float64.sub bigCount2 bigCount0)
          (Float64.of_int (100 + 2 * 10 - 100)))
     = false).
Proof.
  split.
  - eexists _, _. split; [by vm_compute|]. split_and!.
    + by vm_compute.
    + by vm_compute.
    + vm_compute. reflexivity.
    + by vm_compute.
    + by vm_compute.
  - eexists _, _. split; [by vm_compute|]. split_and!.
    + by vm_compute.
    + by vm_compute.
    + vm_compute. reflexivity.
    + by vm_compute.
Qed.

(** ** The theorems at work on the example *)

(** The four cases of ingestion on the example: a report for 110 updates the bucket
    of 110; a report on the empty queue, on a queue of one bucket and on the
    queue of three buckets appends after the closure the case asks for. *)
Lemma UpdateCount_cases_witness :
  let r := report "pod-1" "p1" f5 in
  UpdateCount threeBuckets 110 r
    = Some (withItems threeBuckets ([bucket100] ++ Update r bucket110 :: [bucket120]))
  /\ UpdateCount (emptyQueue 100) 100 r
    = Some (Append (emptyQueue 100) (Update r (NewTimestampedCounts 100)))
  /\ UpdateCount (withItems threeBuckets [bucket100]) 110 r
    = Some (Append (withItems (withItems threeBuckets [bucket100])
                              [CloseWindow None bucket100])
                   (Update r (NewTimestampedCounts 110)))
  /\ UpdateCount threeBuckets 130 r
    = Some (Append (withItems threeBuckets
                      ([bucket100] ++ [bucket110; CloseWindow (Some bucket110) bucket120]))
                   (Update r (NewTimestampedCounts 130))).
Proof.
  intros r. split; [|split; [|split]].
  - apply (proj1 (UpdateCount_cases threeBuckets 110 r) [bucket100] bucket110 [bucket120]).
    + reflexivity.
    + constructor; [simpl; lia|constructor].
    + reflexivity.
  - apply (proj2 (UpdateCount_cases (emptyQueue 100) 100 r)).
    + constructor.
    + reflexivity.
  - apply (proj2 (UpdateCount_cases (withItems threeBuckets [bucket100]) 110 r)).
    + constructor; [simpl; lia|constructor].
    + reflexivity.
  - apply (proj2 (UpdateCount_cases threeBuckets 130 r)).
    + constructor; [simpl; lia|].
      constructor; [simpl; lia|].
      constructor; [simpl; lia|constructor].
    + reflexivity.
Defined.

Lemma CalculateRate_quotient_witness :
  CalculateRate threeBuckets 120 20 "p1" "vertex"
  = Some (Float64.div (closedDeltaSum (Items threeBuckets) "p1" 0 1)
            (Float64.of_int (Int64.sub (timestamp bucket110) (timestamp bucket100)))).
Proof.
  apply (CalculateRate_quotient threeBuckets 120 20 "p1" "vertex" 0 1
           bucket100 bucket110).
  - vm_compute. reflexivity.
  - reflexivity.
  - unfold IndexNotFound. lia.
  - unfold IndexNotFound. lia.
  - reflexivity.
  - reflexivity.
  - vm_compute. discriminate.
Defined.

Lemma findStartIndex_usable_witness :
  exists i b,
    findStartIndex 120 20 (Items threeBuckets) = Some (Z.of_nat i) /\
    Items threeBuckets !! i = Some b /\ usable 120 20 b.
Proof.
  destruct (findStartIndex_usable threeBuckets 120 20 bucket110)
    as (i & b & Hstart & _ & Hb & Hok & _).
  - simpl. lia.
  - reflexivity.
  - vm_compute. discriminate.
  - reflexivity.
  - exists i, b. split; [exact Hstart|]. split; [exact Hb|exact Hok].
Defined.

(** The example with a fourth report, for 130, that closes the bucket of
    120: at [now = 130] with a lookback of 30 seconds the rate is
    [(30 - 5) / (120 - 100)]. *)
Lemma ingest3_rate_witness :
  exists q3 q4,
    ingest3 100 "pod-0" "p1" 100 (100 + 10) (100 + 2 * 10) f5 f15 f30 = Some q3 /\
    UpdateCount q3 130 (report "pod-0" "p1" (Float64.of_int 50)) = Some q4 /\
    CalculateRate q4 130 30 "p1" "vertex"
    = Some (Float64.div (Float64.of_int (30 - 5))
              (Float64.of_int (100 + 2 * 10 - 100))).
Proof.
  destruct (proj2 ingest3_rate 100%nat "pod-0" "p1" "vertex" 100 10 130 130 30
              5 15 30 (report "pod-0" "p1" (Float64.of_int 50)))
    as (q3 & q4 & b0 & b1 & b2 & b3 & Hq3 & Hq4 & _ & Ht0 & _ & Ht2 & _ & _ & _ & _
        & _ & _ & _ & Hrate).
  - lia.
  - lia.
  - lia.
  - vm_compute. split; [reflexivity|discriminate].
  - vm_compute. split; discriminate.
  - lia.
  - lia.
  - lia.
  - lia.
  - lia.
  - exists q3, q4. split; [exact Hq3|]. split; [exact Hq4|].
    rewrite Ht0, Ht2 in Hrate. exact Hrate.
Defined.

Lemma ingest3_open_rate_witness :
  exists q rate,
    ingest3 100 "pod-0" "p1" 100 (100 + 10) (100 + 2 * 10) f5 f15 f30 = Some q /\
    CalculateRate q (100 + 2 * 10) 20 "p1" "vertex" = Some rate /\
    Float64.eqb rate
      (Float64.div (Float64.sub f15 f5) (Float64.of_int (100 + 10 - 100))) = true.
Proof.
  destruct (ingest3_open_rate 100%nat "pod-0" "p1" "vertex" 100 10 20 f5 f15 f30)
    as (q & b0 & b1 & b2 & rate & Hq & Hitems & Ht0 & Ht1 & _ & _ & _ & Hrate & Heq).
  - lia.
  - lia.
  - lia.
  - vm_compute. discriminate.
  - lia.
  - vm_compute. reflexivity.
  - vm_compute. reflexivity.
  - exists q, rate. split; [exact Hq|]. split; [exact Hrate|].
    rewrite Ht0, Ht1 in Heq. exact Heq.
Defined.

Lemma CalculateRate_stale_witness :
  findStartIndex 200 20 (Items threeBuckets) = Some IndexNotFound /\
  CalculateRate threeBuckets 200 20 "p1" "vertex" = Some Float64.zero.
Proof.
  apply (CalculateRate_stale threeBuckets 200 20 "p1" "vertex" bucket110).
  - simpl. lia.
  - reflexivity.
  - vm_compute. intros H. apply H. reflexivity.
Defined.

(** The end index on the example: the history of three buckets is left
    through the dividing exit with end index 1, the index of the bucket of
    110; the history of two open buckets gives 0. *)
Lemma CalculateRate_end_index_witness :
  (exists s,
     CalculateRate_exit threeBuckets 120 20 "p1"
     = Some (ExitQuotient s 1 (closedDeltaSum (Items threeBuckets) "p1" s 1) 10) /\
     CalculateRate threeBuckets 120 20 "p1" "vertex"
     = Some (Float64.div (closedDeltaSum (Items threeBuckets) "p1" s 1)
               (Float64.of_int 10))) /\
  CalculateRate (withItems threeBuckets twoOpenBuckets) 110 20 "p1" "vertex"
  = Some Float64.zero.
Proof.
  split.
  - destruct (CalculateRate_end_index threeBuckets 120 20 "p1" "vertex")
      as (e & He & _ & _ & Hused & _).
    injection He as <-.
    destruct Hused as (s & x & Hs & Hx & _ & Hrate & Hshape); [simpl; lia|].
    injection Hs as <-.
    destruct Hshape as (cs & ce & Hcs & Hce & ->);
      [unfold IndexNotFound; lia|unfold IndexNotFound; lia|].
    injection Hcs as <-. injection Hce as <-.
    exists 0. split; [exact Hx|exact Hrate].
  - destruct (CalculateRate_end_index (withItems threeBuckets twoOpenBuckets)
                110 20 "p1" "vertex") as (e & _ & _ & _ & _ & Hzero).
    apply Hzero. intros j b Hb.
    destruct j as [|[|j]]; simpl in Hb.
    + injection Hb as <-. reflexivity.
    + injection Hb as <-. reflexivity.
    + discriminate.
Defined.

Lemma CalculateRate_too_few_counts_witness :
  CalculateRate_exit (emptyQueue 100) 120 20 "p1" = Some ExitTooFewCounts /\
  CalculateRate (emptyQueue 100) 120 20 "p1" "vertex" = Some Float64.zero.
Proof.
  apply (CalculateRate_too_few_counts (emptyQueue 100) 120 20 "p1" "vertex").
  simpl. lia.
Defined.

(** Totality on the example: the queue of three buckets holds no nil entry
    and the call returns; the queue of two buckets has its start and end
    index on the same bucket and returns 0 without dividing; the queue of
    three buckets divides by 10. *)
Lemma CalculateRate_total_witness :
  (exists rate,
     Ptr.CalculateRate (Ptr.pointers threeBuckets) 120 20 "p1" "vertex" = Some rate) /\
  (Ptr.CalculateRate_exit (Ptr.pointers twoBuckets) 110 20 "p1"
     = Some (ExitZeroTimeDiff 0 0) /\
   Ptr.CalculateRate (Ptr.pointers twoBuckets) 110 20 "p1" "vertex"
     = Some Float64.zero) /\
  (10 <> 0 /\ exists m ex, Float64.of_int 10 = S754_finite (10 <? 0) m ex).
Proof.
  split; [|split].
  - apply (proj1 (CalculateRate_total (Ptr.pointers threeBuckets) 120 20 "p1" "vertex")).
    repeat constructor; by eexists.
  - apply (proj1 (proj2 (CalculateRate_total (Ptr.pointers twoBuckets) 110 20 "p1"
                           "vertex"))
             0 0 bucket100 bucket100).
    + vm_compute. reflexivity.
    + reflexivity.
    + reflexivity.
    + reflexivity.
    + reflexivity.
  - apply (proj2 (proj2 (CalculateRate_total (Ptr.pointers threeBuckets) 120 20 "p1"
                           "vertex"))
             0 1 (Float64.of_int 10)).
    vm_compute. reflexivity.
Defined.

(** The frame of ingestion on the example: a report for 110 finds its bucket,
    a report for 130 does not. *)
Lemma UpdateCount_frame_witness :
  (exists q',
     UpdateCount threeBuckets 110 (report "pod-1" "p1" f5) = Some q' /\
     length (Items q') = length (Items threeBuckets) /\
     IsWindowClosed <$> Items q' = IsWindowClosed <$> Items threeBuckets) /\
  (exists q' items' tc,
     UpdateCount threeBuckets 130 (report "pod-1" "p1" f5) = Some q' /\
     Items q' = drop 0 (items' ++ [tc]) /\
     timestamp tc = 130 /\ IsWindowClosed tc = false /\
     items' !! 0%nat = Some bucket100 /\ items' !! 1%nat = Some bucket110).
Proof.
  split.
  - destruct (UpdateCount_frame threeBuckets 110 (report "pod-1" "p1" f5))
      as (q' & Hq' & Hfound & _).
    exists q'. split; [exact Hq'|]. apply Hfound.
    apply Exists_cons_tl, Exists_cons_hd. reflexivity.
  - destruct (UpdateCount_frame threeBuckets 130 (report "pod-1" "p1" f5))
      as (q' & Hq' & _ & Hfresh).
    destruct Hfresh as (items' & tc & Hitems & Htime & Hopen & _ & Hsame).
    + constructor; [simpl; lia|].
      constructor; [simpl; lia|].
      constructor; [simpl; lia|constructor].
    + exists q', items', tc. split; [exact Hq'|]. split; [exact Hitems|].
      split; [exact Htime|]. split; [exact Hopen|]. split.
      * apply (Hsame 0%nat bucket100); [simpl; lia|reflexivity].
      * apply (Hsame 1%nat bucket110); [simpl; lia|reflexivity].
Defined.

(** The sign of the rate on the example: the history of three buckets has
    deltas and timestamps as required, and the history with two open buckets
    at its end has its end index before its start index. *)
Lemma CalculateRate_nonneg_witness :
  (exists rate,
     CalculateRate threeBuckets 120 20 "p1" "vertex" = Some rate /\
     Float64.nonneg rate) /\
  (closedDeltaSum (Items twoOpenAtEnd) "p1" 1 0 = Float64.zero /\
   exists rate,
     CalculateRate twoOpenAtEnd 120 20 "p1" "vertex" = Some rate /\
     Float64.eqb rate Float64.zero = true).
Proof.
  split.
  - apply (proj1 (CalculateRate_nonneg threeBuckets 120 20 "p1" "vertex")).
    + repeat (constructor; try reflexivity).
    + intros i j bi bj Hij Hi Hj. unfold Int64.max_signed.
      destruct i as [|[|[|i]]]; simpl in Hi; try discriminate;
        injection Hi as <-;
        destruct j as [|[|[|j]]]; simpl in Hj; try discriminate;
        injection Hj as <-; simpl; lia.
  - apply (proj2 (CalculateRate_nonneg twoOpenAtEnd 120 20 "p1" "vertex") 1 0).
    + vm_compute. reflexivity.
    + reflexivity.
    + lia.
Defined.

(** ** More on the start index *)

Lemma findStartIndex_loop_le (now lookbackSeconds : Z) (counts : History)
    (k : nat) (s0 s : Z) :
  (k <= length counts)%nat -> Z.of_nat k <= s0 + 1 ->
  findStartIndex_loop now lookbackSeconds counts k s0 = Some s ->
  s <= s0 /\ (0 <= s0 -> 0 <= s).
Proof.
  intros Hk Hs0 Hloop.
  destruct (findStartIndex_loop_spec now lookbackSeconds counts k s0 Hk)
    as (s' & Hs' & Hspec).
  rewrite Hloop in Hs'. simplify_eq.
  destruct Hspec as [[-> _] | (i & -> & Hi & _)]; lia.
Qed.

Lemma findStartIndex_upper (now lookbackSeconds : Z) (counts : History) (s : Z) :
  findStartIndex now lookbackSeconds counts = Some s ->
  s = IndexNotFound \/ 0 <= s <= Z.of_nat (length counts) - 2.
Proof.
  intros Hs. destruct (decide (length counts < 2)%nat) as [Hshort|Hlong].
  - rewrite findStartIndex_short in Hs by done. left. by simplify_eq.
  - destruct (lookup_lt_is_Some_2 counts (length counts - 2) ltac:(lia)) as [c Hc].
    rewrite (findStartIndex_unfold _ _ _ c) in Hs by (lia || done).
    destruct (_ <? _); [left; by simplify_eq|]. right.
    destruct (findStartIndex_loop_le now lookbackSeconds counts (length counts - 1)
                (Z.of_nat (length counts - 2)) s ltac:(lia) ltac:(lia) Hs). lia.
Qed.


Lemma findStartIndex_loop_app (now lookbackSeconds : Z) (l t : History)
    (k : nat) (s0 : Z) :
  (k <= length l)%nat ->
  findStartIndex_loop now lookbackSeconds (l ++ t) k s0
  = findStartIndex_loop now lookbackSeconds l k s0.
Proof.
  revert s0. induction k as [|i IH]; intros s0 Hk; [done|].
  cbn [findStartIndex_loop]. rewrite lookup_app_l by lia.
  destruct (l !! i) as [c|]; [|done]. cbn [mbind option_bind].
  destruct (_ && _); [|done]. apply IH. lia.
Qed.

(** The start index of a history with a last bucket, in terms of the
    buckets before it. *)
Lemma findStartIndex_snoc (now lookbackSeconds : Z) (l : History)
    (x : TimestampedCounts) :
  findStartIndex now lookbackSeconds (l ++ [x]) =
    match l !! (length l - 1)%nat with
    | None => Some IndexNotFound
    | Some c =>
        if lookbackSeconds <? Int64.sub now (timestamp c) then Some IndexNotFound
        else findStartIndex_loop now lookbackSeconds l (length l)
               (Z.of_nat (length l - 1))
    end.
Proof.
  destruct (decide (length l = 0)%nat) as [Hnil|Hcons].
  - rewrite findStartIndex_short by (rewrite length_app; simpl; lia).
    by rewrite lookup_ge_None_2 by lia.
  - destruct (lookup_lt_is_Some_2 l (length l - 1) ltac:(lia)) as [c Hc].
    rewrite Hc, (findStartIndex_unfold _ _ (l ++ [x]) c).
    + rewrite !length_app. simpl.
      replace (length l + 1 - 1)%nat with (length l) by lia.
      replace (length l + 1 - 2)%nat with (length l - 1)%nat by lia.
      destruct (_ <? _); [done|]. by rewrite findStartIndex_loop_app by lia.
    + rewrite length_app. simpl. lia.
    + rewrite length_app. simpl.
      replace (length l + 1 - 2)%nat with (length l - 1)%nat by lia.
      by rewrite lookup_app_l by lia.
Qed.

(** X2: [findStartIndex] never looks at the most recent bucket: two histories
    that differ in their last bucket only have the same start index. *)
Theorem findStartIndex_ignores_last (now lookbackSeconds : Z) (l : History)
    (x y : TimestampedCounts) :
  findStartIndex now lookbackSeconds (l ++ [x])
  = findStartIndex now lookbackSeconds (l ++ [y]).
Proof.
  rewrite (findStartIndex_snoc now lookbackSeconds l x).
  rewrite (findStartIndex_snoc now lookbackSeconds l y).
  reflexivity.
Qed.

Lemma findStartIndex_loop_mono (now lb lb' : Z) (counts : History)
    (k : nat) (s0 s0' s : Z) :
  lb <= lb' -> (k <= length counts)%nat ->
  s0' <= s0 -> Z.of_nat k <= s0' + 1 ->
  findStartIndex_loop now lb counts k s0 = Some s ->
  exists s', findStartIndex_loop now lb' counts k s0' = Some s' /\ s' <= s.
Proof.
  intros Hlb. revert s0 s0' s. induction k as [|i IH]; intros s0 s0' s Hk Hs0 Hks Hloop.
  - simpl in *. simplify_eq. by exists s0'.
  - cbn [findStartIndex_loop] in *.
    destruct (lookup_lt_is_Some_2 counts i ltac:(lia)) as [c Hc].
    rewrite Hc in *. cbn [mbind option_bind] in *.
    destruct (IsWindowClosed c) eqn:Hclosed.
    + rewrite !andb_true_r in *.
      destruct (Z.leb_spec (Int64.sub now (timestamp c)) lb) as [Hin|Hout].
      * destruct (Z.leb_spec (Int64.sub now (timestamp c)) lb'); [|lia].
        apply (IH (Z.of_nat i) (Z.of_nat i) s); [lia|lia|lia|done].
      * simplify_eq.
        destruct (Z.leb_spec (Int64.sub now (timestamp c)) lb'); [|by exists s0'].
        destruct (findStartIndex_loop_spec now lb' counts i (Z.of_nat i) ltac:(lia))
          as (s' & Hs' & _).
        exists s'. split; [done|].
        destruct (findStartIndex_loop_le now lb' counts i (Z.of_nat i) s'
                    ltac:(lia) ltac:(lia) Hs'). lia.
    + rewrite !andb_false_r in *. simplify_eq. by exists s0'.
Qed.

(** X3: a longer lookback window starts no later: when the start index is
    found for [lookbackSeconds], it is found for every larger lookback, at the
    same index or an earlier one. *)
Theorem findStartIndex_lookback_mono (now lb lb' : Z) (counts : History) (s : Z) :
  lb <= lb' ->
  findStartIndex now lb counts = Some s -> s <> IndexNotFound ->
  exists s', findStartIndex now lb' counts = Some s' /\ 0 <= s' <= s.
Proof.
  intros Hlb Hs Hfound.
  destruct (decide (length counts < 2)%nat) as [Hshort|Hlong].
  { rewrite findStartIndex_short in Hs by done. by simplify_eq. }
  destruct (lookup_lt_is_Some_2 counts (length counts - 2) ltac:(lia)) as [c Hc].
  rewrite (findStartIndex_unfold now lb _ c) in Hs by (lia || done).
  rewrite (findStartIndex_unfold now lb' _ c) by (lia || done).
  destruct (Z.ltb_spec lb (Int64.sub now (timestamp c))); [by simplify_eq|].
  destruct (Z.ltb_spec lb' (Int64.sub now (timestamp c))); [lia|].
  destruct (findStartIndex_loop_mono now lb lb' counts (length counts - 1)
              (Z.of_nat (length counts - 2)) (Z.of_nat (length counts - 2)) s
              Hlb ltac:(lia) ltac:(lia) ltac:(lia) Hs) as (s' & Hs' & Hle).
  exists s'. split; [done|]. split; [|done].
  destruct (findStartIndex_loop_le now lb' counts (length counts - 1)
              (Z.of_nat (length counts - 2)) s' ltac:(lia) ltac:(lia) Hs'). lia.
Qed.

(** ** Partitions no pod has reported *)

Lemma map_get_unknown (m : gomap float64) (k : string) :
  Forall (fun '(k', _) => k' <> k) m -> map_get Float64.zero m k = Float64.zero.
Proof.
  induction m as [|[k' v] m IH]; intros Hm; [done|].
  apply Forall_cons in Hm as [Hk Hm]. simpl.
  destruct (String.eqb_spec k' k); [done|]. by apply IH.
Qed.

Lemma fsum_zeros (l : list float64) :
  Forall (fun x => x = Float64.zero) l -> fsum l = Float64.zero.
Proof.
  unfold fsum. induction l as [|x l IH]; intros Hl; [done|].
  apply Forall_cons in Hl as [-> Hl]. simpl. by apply IH.
Qed.

(** X4: the delta of a partition that is a key of no pod of the delta
    snapshot is the float +0; in particular the delta over an empty snapshot
    is +0. *)
Theorem calculatePartitionDelta_unknown (c : TimestampedCounts) (partitionName : string) :
  partitionUnknown partitionName c ->
  calculatePartitionDelta c partitionName = Float64.zero.
Proof.
  intros Hc. rewrite calculatePartitionDelta_fsum. apply fsum_zeros.
  unfold podDeltaValues. apply Forall_fmap.
  eapply Forall_impl; [exact Hc|]. intros [pod pc] Hpc. simpl.
  by apply map_get_unknown.
Qed.

Lemma closedDeltaSum_unknown (counts : History) (partitionName : string) (s e : Z) :
  Forall (partitionUnknown partitionName) counts ->
  closedDeltaSum counts partitionName s e = Float64.zero.
Proof.
  intros Hall. apply fsum_zeros, Forall_forall. intros x Hx.
  apply list_elem_of_omap in Hx as (i & _ & Hi). unfold closedDeltaAt in Hi.
  destruct (index counts (i + 1)) as [c|] eqn:Hc; [|done]. simpl in Hi.
  destruct (IsWindowClosed c); [|done]. simplify_eq.
  apply index_Some in Hc as [_ Hc]. apply list_elem_of_lookup_2 in Hc.
  rewrite Forall_forall in Hall.
  rewrite <- calculatePartitionDelta_fsum.
  by apply calculatePartitionDelta_unknown, Hall.
Qed.

(** X5: for a partition that no delta snapshot of the history knows,
    [CalculateRate] returns a zero (a float that compares equal to 0),
    whatever the timestamps and the lookback window are. *)
Theorem CalculateRate_unknown_partition (q : Queue) (now lookbackSeconds : Z)
    (partitionName vertexName : string) :
  Forall (partitionUnknown partitionName) (Items q) ->
  exists rate,
    CalculateRate q now lookbackSeconds partitionName vertexName = Some rate /\
    Float64.eqb rate Float64.zero = true.
Proof.
  intros Hall. unfold CalculateRate.
  destruct (CalculateRate_exit_cases q now lookbackSeconds partitionName)
    as [[_ ->] | (_ & s & e & _ & _ & _ & _ & Hexit)]; [by eexists|].
  destruct Hexit as [[_ ->] | (_ & _ & cs & ce & _ & _ & Hexit)]; [by eexists|].
  cbv zeta in Hexit. destruct Hexit as [[_ ->] | [Hnz ->]]; [by eexists|].
  eexists. split; [reflexivity|]. simpl.
  rewrite closedDeltaSum_unknown by done.
  destruct (of_int_finite (Int64.sub (timestamp ce) (timestamp cs)) Hnz
              (Int64_sub_in_range _ _)) as (m & ex & ->).
  reflexivity.
Qed.

(** ** Short histories and histories kept by the ingestion *)

(** X6: on a history of exactly two buckets whose most recent bucket is still
    open, [CalculateRate] returns 0: the start and the end index, when found,
    are both the first bucket.  A rate needs two closed buckets. *)
Theorem CalculateRate_two_buckets (q : Queue) (now lookbackSeconds : Z)
    (partitionName vertexName : string) (b0 b1 : TimestampedCounts) :
  Items q = [b0; b1] -> IsWindowClosed b1 = false ->
  CalculateRate q now lookbackSeconds partitionName vertexName = Some Float64.zero.
Proof.
  intros Hitems Hopen. unfold CalculateRate.
  destruct (CalculateRate_exit_cases q now lookbackSeconds partitionName)
    as [[_ ->] | (_ & s & e & Hs & He & Hsr & Her & Hexit)]; [done|].
  destruct Hexit as [[_ ->] | (Hs0 & He0 & cs & ce & Hcs & Hce & Hexit)]; [done|].
  cbv zeta in Hexit. destruct Hexit as [[_ ->] | [Hnz _]]; [done|].
  exfalso. rewrite Hitems in *. simpl in Hsr, Her.
  destruct (findStartIndex_upper now lookbackSeconds [b0; b1] s Hs) as [Hnf|Hrange];
    [unfold IndexNotFound in *; lia|].
  simpl in Hrange. assert (s = 0) as -> by lia.
  assert (e = 0) as ->.
  { unfold findEndIndex in He. simpl in He. rewrite Hopen in He.
    destruct (IsWindowClosed b0); simplify_eq; lia. }
  rewrite Hcs in Hce. simplify_eq. by rewrite Int64_sub_diag in Hnz.
Qed.

(** X7: on a history of two buckets or more in which every bucket but the
    most recent one is closed (the shape [UpdateCount] maintains), the end
    index is always found, it is the last or the second-to-last bucket, and a
    start index that is found does not come after it. *)
Theorem findEndIndex_after_start (now lookbackSeconds : Z) (counts : History) (s : Z) :
  allButLastClosed counts -> (2 <= length counts)%nat ->
  findStartIndex now lookbackSeconds counts = Some s ->
  exists e,
    findEndIndex counts = Some e /\
    Z.of_nat (length counts) - 2 <= e < Z.of_nat (length counts) /\ s <= e.
Proof.
  intros Hinv Hn Hs.
  destruct (findEndIndex_loop_spec counts (length counts) ltac:(lia))
    as (e & He & Hspec).
  destruct (lookup_lt_is_Some_2 counts (length counts - 2) ltac:(lia)) as [c Hc].
  assert (Hclosed : IsWindowClosed c = true)
    by (apply (Hinv (length counts - 2)%nat c); [lia|done]).
  exists e. split; [exact He|].
  pose proof (findStartIndex_upper now lookbackSeconds counts s Hs) as Hrange.
  destruct Hspec as [[-> Hopen] | (i & b & -> & Hi & Hb & Hbc & Hafter)].
  - rewrite (Hopen (length counts - 2)%nat c ltac:(lia) Hc) in Hclosed. discriminate.
  - assert (length counts - 2 <= i)%nat.
    { destruct (decide (length counts - 2 <= i)%nat) as [|Hlt]; [done|].
      rewrite (Hafter (length counts - 2)%nat c ltac:(lia) Hc) in Hclosed.
      discriminate. }
    unfold IndexNotFound in Hrange. lia.
Qed.

(** ** What the rate query reads *)

Lemma CalculateRate_exit_unfold (q : Queue) (now lookbackSeconds : Z)
    (partitionName : string) :
  CalculateRate_exit q now lookbackSeconds partitionName =
    if (length (Items q) <=? 1)%nat then Some ExitTooFewCounts
    else
      s ← findStartIndex now lookbackSeconds (Items q);
      e ← findEndIndex (Items q);
      rateAfterSearch (Items q) partitionName s e.
Proof. reflexivity. Qed.

Lemma index_app_l {A : Type} (l t : list A) (i : Z) :
  i < Z.of_nat (length l) -> index (l ++ t) i = index l i.
Proof.
  intros Hi. unfold index. destruct (Z.ltb_spec i 0); [done|].
  apply lookup_app_l. lia.
Qed.

Lemma sumDeltas_app (l t : History) (partitionName : string)
    (fuel : nat) (i : Z) (delta : float64) :
  i + Z.of_nat fuel < Z.of_nat (length l) ->
  sumDeltas (l ++ t) partitionName fuel i delta
  = sumDeltas l partitionName fuel i delta.
Proof.
  revert i delta. induction fuel as [|fuel IH]; intros i delta Hi; [done|].
  cbn [sumDeltas]. rewrite index_app_l by lia.
  destruct (index l (i + 1)) as [c|]; [|done]. cbn [mbind option_bind].
  apply IH. lia.
Qed.

Lemma rateAfterSearch_app (l t : History) (partitionName : string) (s e : Z) :
  s < Z.of_nat (length l) -> e < Z.of_nat (length l) ->
  rateAfterSearch (l ++ t) partitionName s e = rateAfterSearch l partitionName s e.
Proof.
  intros Hs He. unfold rateAfterSearch.
  destruct (_ || _); [done|].
  rewrite !index_app_l by lia.
  destruct (index l e) as [ce|]; [|done].
  destruct (index l s) as [cs|]; [|done]. cbn [mbind option_bind].
  destruct (_ =? 0); [done|].
  by rewrite sumDeltas_app by lia.
Qed.

Lemma findEndIndex_loop_app (l t : History) (k : nat) :
  (k <= length l)%nat -> findEndIndex_loop (l ++ t) k = findEndIndex_loop l k.
Proof.
  induction k as [|i IH]; intros Hk; [done|].
  cbn [findEndIndex_loop]. rewrite lookup_app_l by lia.
  destruct (l !! i) as [c|]; [|done]. cbn [mbind option_bind].
  destruct (IsWindowClosed c); [done|]. apply IH. lia.
Qed.

Lemma findEndIndex_snoc_open (l : History) (x : TimestampedCounts) :
  IsWindowClosed x = false -> findEndIndex (l ++ [x]) = findEndIndex l.
Proof.
  intros Hopen. unfold findEndIndex. rewrite length_app. simpl.
  rewrite Nat.add_1_r. cbn [findEndIndex_loop].
  rewrite list_lookup_middle by done. cbn [mbind option_bind]. rewrite Hopen.
  by apply findEndIndex_loop_app.
Qed.

(** With the orders of iteration fixed, an open most recent bucket has no
    part in the rate, and neither has the capacity of the queue. *)
Lemma CalculateRate_open_last (capacity capacity' : nat) (l : History)
    (x y : TimestampedCounts) (now lookbackSeconds : Z)
    (partitionName vertexName : string) :
  IsWindowClosed x = false -> IsWindowClosed y = false ->
  CalculateRate {| elements := l ++ [x]; size := capacity |}
                now lookbackSeconds partitionName vertexName
  = CalculateRate {| elements := l ++ [y]; size := capacity' |}
                  now lookbackSeconds partitionName vertexName.
Proof.
  intros Hx Hy. unfold CalculateRate. f_equal.
  rewrite !CalculateRate_exit_unfold. cbn [Items elements].
  rewrite !length_app. cbn [length].
  destruct (_ <=? 1)%nat; [done|].
  rewrite (findStartIndex_snoc now lookbackSeconds l x).
  rewrite (findStartIndex_snoc now lookbackSeconds l y).
  rewrite !findEndIndex_snoc_open by done.
  set (start := match l !! (length l - 1)%nat with Some _ => _ | None => _ end).
  destruct start as [s|] eqn:Hstart; [|done]. cbn [mbind option_bind].
  destruct (findEndIndex_total l) as (e & He & Her). rewrite He.
  cbn [mbind option_bind].
  assert (Hs : s < Z.of_nat (length l)).
  { pose proof (findStartIndex_snoc now lookbackSeconds l x) as Hsnoc.
    fold start in Hsnoc. rewrite Hstart in Hsnoc.
    destruct (findStartIndex_upper _ _ _ _ Hsnoc) as [->|Hr];
      [unfold IndexNotFound; lia|].
    rewrite length_app in Hr. simpl in Hr. lia. }
  by rewrite !rateAfterSearch_app by lia.
Qed.

Lemma sameRateData_lookup (l l' : History) (i : nat) :
  Forall2 sameRateData l l' ->
  option_Forall2 sameRateData (l !! i) (l' !! i).
Proof. intros H. by apply Forall2_lookup. Qed.

Lemma sameRateData_index (l l' : History) (i : Z) :
  Forall2 sameRateData l l' ->
  option_Forall2 sameRateData (index l i) (index l' i).
Proof.
  intros H. unfold index. destruct (i <? 0); [constructor|].
  by apply sameRateData_lookup.
Qed.

Lemma sameRateData_findStartIndex_loop (now lookbackSeconds : Z) (l l' : History)
    (k : nat) (s0 : Z) :
  Forall2 sameRateData l l' ->
  findStartIndex_loop now lookbackSeconds l k s0
  = findStartIndex_loop now lookbackSeconds l' k s0.
Proof.
  intros H. revert s0. induction k as [|i IH]; intros s0; [done|].
  cbn [findStartIndex_loop].
  destruct (sameRateData_lookup l l' i H) as [c c' (Ht & Hc & _)|]; [|done].
  cbn [mbind option_bind]. rewrite Ht, Hc. destruct (_ && _); [apply IH|done].
Qed.

Lemma sameRateData_findStartIndex (now lookbackSeconds : Z) (l l' : History) :
  Forall2 sameRateData l l' ->
  findStartIndex now lookbackSeconds l = findStartIndex now lookbackSeconds l'.
Proof.
  intros H. unfold findStartIndex. rewrite <- (Forall2_length _ _ _ H).
  destruct (_ <? 2); [done|].
  destruct (sameRateData_index l l' (Z.of_nat (length l) - 2) H)
    as [c c' (Ht & _ & _)|]; [|done].
  cbn [mbind option_bind]. rewrite Ht. destruct (_ <? _); [done|].
  by apply sameRateData_findStartIndex_loop.
Qed.

Lemma sameRateData_findEndIndex (l l' : History) :
  Forall2 sameRateData l l' -> findEndIndex l = findEndIndex l'.
Proof.
  intros H. unfold findEndIndex. rewrite <- (Forall2_length _ _ _ H).
  induction (length l) as [|i IH]; [done|].
  cbn [findEndIndex_loop].
  destruct (sameRateData_lookup l l' i H) as [c c' (_ & Hc & _)|]; [|done].
  cbn [mbind option_bind]. rewrite Hc. by destruct (IsWindowClosed c').
Qed.

Lemma sameRateData_sumDeltas (l l' : History) (partitionName : string)
    (fuel : nat) (i : Z) (delta : float64) :
  Forall2 sameRateData l l' ->
  sumDeltas l partitionName fuel i delta = sumDeltas l' partitionName fuel i delta.
Proof.
  intros H. revert i delta. induction fuel as [|fuel IH]; intros i delta; [done|].
  cbn [sumDeltas].
  destruct (sameRateData_index l l' (i + 1) H) as [c c' (_ & Hc & Hd)|]; [|done].
  cbn [mbind option_bind]. unfold calculatePartitionDelta. rewrite Hc, Hd.
  apply IH.
Qed.

Lemma sameRateData_CalculateRate_exit (q q' : Queue) (now lookbackSeconds : Z)
    (partitionName : string) :
  Forall2 sameRateData (Items q) (Items q') ->
  CalculateRate_exit q now lookbackSeconds partitionName
  = CalculateRate_exit q' now lookbackSeconds partitionName.
Proof.
  intros H. rewrite !CalculateRate_exit_unfold.
  rewrite <- (Forall2_length _ _ _ H).
  destruct (_ <=? 1)%nat; [done|].
  rewrite <- (sameRateData_findStartIndex now lookbackSeconds _ _ H).
  rewrite <- (sameRateData_findEndIndex _ _ H).
  destruct (findStartIndex _ _ _) as [s|]; [|done].
  destruct (findEndIndex _) as [e|]; [|done]. cbn [mbind option_bind].
  unfold rateAfterSearch. destruct (_ || _); [done|].
  destruct (sameRateData_index _ _ e H) as [ce ce' (Hte & _ & _)|]; [|done].
  destruct (sameRateData_index _ _ s H) as [cs cs' (Hts & _ & _)|]; [|done].
  cbn [mbind option_bind]. rewrite Hte, Hts.
  destruct (_ =? 0); [done|].
  by rewrite (sameRateData_sumDeltas _ _ _ _ _ _ H).
Qed.

(** ** Two calls and the order of iteration *)

Lemma visitedAs_snapshot (b : TimestampedCounts) :
  visitedAs (PodDeltaCountSnapshot b) b = b.
Proof. by destruct b. Qed.

Lemma zip_visitedAs_snapshots (l : History) :
  zip_with visitedAs (PodDeltaCountSnapshot <$> l) l = l.
Proof.
  induction l as [|b l IH]; [done|].
  cbn [fmap list_fmap zip_with]. by rewrite visitedAs_snapshot, IH.
Qed.

(** The value a call returns under the order of the lists is a value it may
    return. *)
Lemma CalculateRate_may_intro (q : Queue) (now lookbackSeconds : Z)
    (partitionName vertexName : string) (rate : float64) :
  CalculateRate q now lookbackSeconds partitionName vertexName = Some rate ->
  CalculateRate_may q now lookbackSeconds partitionName vertexName rate.
Proof.
  intros H. exists (PodDeltaCountSnapshot <$> Items q). split.
  - apply Forall2_fmap_r, Forall_Forall2_diag, Forall_forall.
    intros b _. unfold rangeOrder. simpl. reflexivity.
  - unfold CalculateRate_in. rewrite zip_visitedAs_snapshots.
    by destruct q.
Qed.

Lemma sameRateView_sym (l l' : History) :
  Forall2 sameRateView l l' -> Forall2 sameRateView l' l.
Proof.
  intros H. apply Forall2_flip. eapply Forall2_impl; [exact H|].
  intros b b' (Ht & Hc & Hd). done.
Qed.

Lemma sameRateView_orders (l l' : History) (orders : list PodPartitionCounts) :
  Forall2 sameRateView l l' ->
  Forall2 (fun b o => rangeOrder (PodDeltaCountSnapshot b) o) l orders ->
  Forall2 (fun b o => rangeOrder (PodDeltaCountSnapshot b) o) l' orders /\
  Forall2 sameRateData (zip_with visitedAs orders l) (zip_with visitedAs orders l').
Proof.
  intros H. revert orders.
  induction H as [|b b' l l' (Ht & Hc & Hd) _ IH]; intros orders Ho.
  - inversion Ho; subst. split; constructor.
  - inversion Ho as [|? o ? os Hbo Hos]; subst.
    destruct (IH os Hos) as [IH1 IH2]. split.
    + constructor; [|exact IH1]. unfold rangeOrder in *. by rewrite <- Hd.
    + cbn [zip_with]. constructor; [|exact IH2].
      split; [exact Ht|]. split; [exact Hc|reflexivity].
Qed.

Lemma sameRateView_CalculateRate_may (q q' : Queue) (now lookbackSeconds : Z)
    (partitionName vertexName : string) (rate : float64) :
  Forall2 sameRateView (Items q) (Items q') ->
  CalculateRate_may q now lookbackSeconds partitionName vertexName rate ->
  CalculateRate_may q' now lookbackSeconds partitionName vertexName rate.
Proof.
  intros H (orders & Ho & Hrate).
  destruct (sameRateView_orders _ _ _ H Ho) as [Ho' Hdata].
  exists orders. split; [exact Ho'|].
  unfold CalculateRate_in, CalculateRate in *.
  by rewrite <- (sameRateData_CalculateRate_exit
                   (withItems q (zip_with visitedAs orders (Items q)))
                   (withItems q' (zip_with visitedAs orders (Items q')))
                   now lookbackSeconds partitionName Hdata).
Qed.

(** X9: [CalculateRate] reads nothing of the history but the timestamps, the
    window-closed flags and the delta snapshots of the buckets, the
    snapshots as maps: two queues whose buckets agree on these three,
    position by position, may return the same values, whatever their
    cumulative counts and capacities are and in whatever order the pods of a
    snapshot are listed. *)
Theorem CalculateRate_reads_rate_data (q q' : Queue) (now lookbackSeconds : Z)
    (partitionName vertexName : string) :
  Forall2 sameRateView (Items q) (Items q') ->
  forall rate,
    CalculateRate_may q now lookbackSeconds partitionName vertexName rate <->
    CalculateRate_may q' now lookbackSeconds partitionName vertexName rate.
Proof.
  intros H rate. split.
  - by apply sameRateView_CalculateRate_may.
  - by apply sameRateView_CalculateRate_may, sameRateView_sym.
Qed.

Lemma CalculateRate_may_open_last (capacity capacity' : nat) (l : History)
    (x y : TimestampedCounts) (now lookbackSeconds : Z)
    (partitionName vertexName : string) (rate : float64) :
  IsWindowClosed x = false -> IsWindowClosed y = false ->
  CalculateRate_may {| elements := l ++ [x]; size := capacity |}
    now lookbackSeconds partitionName vertexName rate ->
  CalculateRate_may {| elements := l ++ [y]; size := capacity' |}
    now lookbackSeconds partitionName vertexName rate.
Proof.
  intros Hx Hy (orders & Ho & Hrate). cbn [Items elements] in Ho.
  apply Forall2_app_inv_l in Ho as (ol & ox' & Hol & Hox & ->).
  inversion Hox as [|? ox ? ? Hxo Hnil]; subst. inversion Hnil; subst.
  exists (ol ++ [PodDeltaCountSnapshot y]). split.
  - cbn [Items elements]. apply Forall2_app; [exact Hol|].
    constructor; [|constructor]. unfold rangeOrder. done.
  - unfold CalculateRate_in, withItems in *. cbn [Items elements size] in *.
    pose proof (Forall2_length _ _ _ Hol) as Hlen.
    rewrite zip_with_app in Hrate |- * by done.
    cbn [zip_with] in Hrate |- *. rewrite <- Hrate.
    by apply CalculateRate_open_last.
Qed.

(** X8: an open most recent bucket has no part in the rate: replacing it by
    any other open bucket (another timestamp, other counts) leaves the
    values [CalculateRate] may return unchanged, and so does the capacity of
    the queue. *)
Theorem CalculateRate_ignores_open_last (capacity capacity' : nat) (l : History)
    (x y : TimestampedCounts) (now lookbackSeconds : Z)
    (partitionName vertexName : string) :
  IsWindowClosed x = false -> IsWindowClosed y = false ->
  forall rate,
    CalculateRate_may {| elements := l ++ [x]; size := capacity |}
      now lookbackSeconds partitionName vertexName rate <->
    CalculateRate_may {| elements := l ++ [y]; size := capacity' |}
      now lookbackSeconds partitionName vertexName rate.
Proof.
  intros Hx Hy rate. split; by apply CalculateRate_may_open_last.
Qed.

(** X17: the history does not determine the result of [CalculateRate]: with
    three pods in a delta snapshot, two calls on the same history may return
    two floats that differ, since the loop over the snapshot adds the floats
    in the order of iteration of the map. *)
Theorem CalculateRate_may_differ :
  exists (q : Queue) (now lookbackSeconds : Z) (partitionName vertexName : string)
         (rate rate' : float64),
    CalculateRate_may q now lookbackSeconds partitionName vertexName rate /\
    CalculateRate_may q now lookbackSeconds partitionName vertexName rate' /\
    Float64.eqb rate rate' = false.
Proof.
  exists threePods, 120, 20, "p1", "vertex".
  eexists _, _. split_and!.
  - apply CalculateRate_may_intro. vm_compute. reflexivity.
  - exists (PodDeltaCountSnapshot <$> Items threePods'). split.
    + cbn [Items elements threePods threePods' fmap list_fmap].
      constructor; [unfold rangeOrder; reflexivity|].
      constructor; [|constructor; [unfold rangeOrder; reflexivity|constructor]].
      unfold rangeOrder. cbn [PodDeltaCountSnapshot podPartitionDelta
                               bucket110pods bucket110pods'].
      etransitivity; [apply perm_skip, perm_swap|apply perm_swap].
    + vm_compute. reflexivity.
  - vm_compute. reflexivity.
Qed.

(** ** The guard of the division on distinct timestamps *)

Lemma Int64_sub_eq_0 (a b : Z) :
  Int64.in_range a -> Int64.in_range b -> Int64.sub a b = 0 -> a = b.
Proof.
  unfold Int64.in_range, Int64.sub, Int64.wrap, Int64.min_signed, Int64.max_signed,
    Int64.modulus.
  intros Ha Hb H.
  pose proof (Z.div_mod (a - b - - 2 ^ 63) (2 ^ 64) ltac:(lia)) as Hdm.
  pose proof (Z.mod_pos_bound (a - b - - 2 ^ 63) (2 ^ 64) ltac:(lia)) as Hm.
  assert (Hq : (a - b - - 2 ^ 63) / 2 ^ 64 = 0) by nia.
  rewrite Hq in Hdm. lia.
Qed.

(** X10: on a history whose timestamps are [int64] values and pairwise
    distinct, [CalculateRate] with both indices found takes the exit that
    returns 0 for a zero time difference exactly when the start and the end
    index are the same bucket; with two different buckets it divides. *)
Theorem CalculateRate_zero_time_diff (q : Queue) (now lookbackSeconds : Z)
    (partitionName : string) (s e : Z) :
  Forall (fun b => Int64.in_range (timestamp b)) (Items q) ->
  NoDup (timestamp <$> Items q) ->
  findStartIndex now lookbackSeconds (Items q) = Some s ->
  findEndIndex (Items q) = Some e ->
  s <> IndexNotFound -> e <> IndexNotFound ->
  (CalculateRate_exit q now lookbackSeconds partitionName
     = Some (ExitZeroTimeDiff s e) <-> s = e) /\
  (s <> e ->
   exists delta timeDiff,
     CalculateRate_exit q now lookbackSeconds partitionName
       = Some (ExitQuotient s e delta timeDiff) /\ timeDiff <> 0).
Proof.
  intros Hrange Hnodup Hs He Hsn Hen.
  destruct (CalculateRate_exit_cases q now lookbackSeconds partitionName)
    as [[Hshort _] | (_ & s' & e' & Hs' & He' & _ & _ & Hexit)].
  { rewrite findStartIndex_short in Hs by lia. by simplify_eq. }
  assert (s' = s) as -> by congruence. assert (e' = e) as -> by congruence.
  destruct Hexit as [[[?|?] _] | (Hs0 & He0 & cs & ce & Hcs & Hce & Hexit)]; [done..|].
  cbv zeta in Hexit.
  assert (Hiff : Int64.sub (timestamp ce) (timestamp cs) = 0 <-> s = e).
  { apply index_Some in Hcs as [_ Hcs]. apply index_Some in Hce as [_ Hce].
    split.
    - intros Hz. rewrite Forall_lookup in Hrange.
      apply Int64_sub_eq_0 in Hz; [|by eapply Hrange..].
      assert (Z.to_nat s = Z.to_nat e); [|lia].
      apply (NoDup_lookup _ _ _ (timestamp cs) Hnodup).
      + by rewrite list_lookup_fmap, Hcs.
      + rewrite list_lookup_fmap, Hce. simpl. by rewrite Hz.
    - intros ->. rewrite Hcs in Hce. simplify_eq. apply Int64_sub_diag. }
  destruct Hexit as [[Hz ->] | [Hnz ->]].
  - split; [split; [intros _; by apply Hiff|done]|].
    intros Hne. by apply Hiff in Hz.
  - split.
    + split; [done|]. intros Heq. by apply Hiff in Heq.
    + intros _. by eexists _, _.
Qed.

(** ** Invariants of the ingestion *)

Lemma Update_timestamp (r : PodReadCount) (b : TimestampedCounts) :
  timestamp (Update r b) = timestamp b.
Proof. reflexivity. Qed.

Lemma CloseWindow_timestamp (baseline : option TimestampedCounts)
    (b : TimestampedCounts) :
  timestamp (CloseWindow baseline b) = timestamp b.
Proof. unfold CloseWindow. by destruct (isWindowClosed b). Qed.

Lemma closeMostRecent_timestamps (items items' : History) :
  closeMostRecent items = Some items' -> timestamp <$> items' = timestamp <$> items.
Proof.
  unfold closeMostRecent. intros H.
  destruct (length items) as [|[|m]]; [by simplify_eq| |].
  - destruct (items !! 0%nat) as [first|] eqn:Hfirst; [|done]. simplify_eq/=.
    rewrite list_fmap_insert, CloseWindow_timestamp.
    apply list_insert_id. by rewrite list_lookup_fmap, Hfirst.
  - destruct (items !! S m) as [last|] eqn:Hlast; [|done].
    destruct (items !! m) as [prev|] eqn:Hprev; [|done]. simplify_eq/=.
    rewrite list_fmap_insert, CloseWindow_timestamp.
    apply list_insert_id. by rewrite list_lookup_fmap, Hlast.
Qed.

(** The timestamps of the history after [UpdateCount]: unchanged when the
    timestamp is present; otherwise the timestamp is added at the end and the
    oldest is dropped when the capacity is exceeded. *)
Lemma UpdateCount_timestamps (q q' : Queue) (time : Z) (r : PodReadCount) :
  UpdateCount q time r = Some q' ->
  (time ∈ (timestamp <$> Items q) /\
   timestamp <$> Items q' = timestamp <$> Items q)
  \/
  ((time ∉ (timestamp <$> Items q)) /\
   (timestamp <$> Items q' =
     let l := (timestamp <$> Items q) ++ [time] in
     if (size q <? length l)%nat then drop 1 l else l)).
Proof.
  unfold UpdateCount.
  destruct (list_find (fun i => timestamp i = time) (Items q)) as [[k b]|] eqn:Hfind.
  - intros [= <-]. apply list_find_Some in Hfind as (Hk & Hb & _). left. split.
    + apply list_elem_of_fmap. exists b. split; [done|].
      by apply list_elem_of_lookup_2 in Hk.
    + cbn [Items elements withItems]. rewrite list_fmap_insert, Update_timestamp.
      apply list_insert_id. by rewrite list_lookup_fmap, Hk.
  - apply list_find_None in Hfind.
    destruct (closeMostRecent (Items q)) as [items'|] eqn:Hclose; [|done].
    intros [= <-]. right. split.
    + intros (b & Hb & Hin)%list_elem_of_fmap.
      rewrite Forall_forall in Hfind. by apply (Hfind b Hin).
    + apply closeMostRecent_timestamps in Hclose.
      cbn [Items elements withItems Append size]. cbv zeta.
      rewrite !length_app, !length_fmap.
      rewrite <- (length_fmap timestamp items'), Hclose, length_fmap.
      destruct (_ <? _)%nat.
      * by rewrite fmap_drop, fmap_app, Hclose.
      * by rewrite fmap_app, Hclose.
Qed.

(** X11: [UpdateCount] keeps the timestamps of the history pairwise distinct:
    it appends a bucket only for a timestamp no bucket carries, and no call
    it makes changes the timestamp of a bucket. *)
Theorem UpdateCount_NoDup (q q' : Queue) (time : Z) (r : PodReadCount) :
  NoDup (timestamp <$> Items q) -> UpdateCount q time r = Some q' ->
  NoDup (timestamp <$> Items q').
Proof.
  intros Hnodup Hq'.
  destruct (UpdateCount_timestamps q q' time r Hq') as [[_ ->] | [Hfresh ->]];
    [done|].
  cbv zeta.
  assert (Hall : NoDup ((timestamp <$> Items q) ++ [time])).
  { apply NoDup_app. split; [done|]. split; [|apply NoDup_singleton].
    intros t Ht ->%list_elem_of_singleton. done. }
  destruct (_ <? _)%nat; [|done].
  eapply sublist_NoDup; [done|apply sublist_drop].
Qed.

(** X12: reports for one and the same timestamp share a bucket.  After
    [UpdateCount] for a timestamp on a queue of capacity 1 or more, a bucket
    with that timestamp is in the history, and a further [UpdateCount] for the
    timestamp, whatever it reports, leaves the timestamps of the history as
    they are: it closes no window's successor and appends nothing. *)
Theorem UpdateCount_same_timestamp (q q1 : Queue) (time : Z) (r r' : PodReadCount) :
  (1 <= size q)%nat -> UpdateCount q time r = Some q1 ->
  time ∈ (timestamp <$> Items q1) /\
  exists q2,
    UpdateCount q1 time r' = Some q2 /\
    timestamp <$> Items q2 = timestamp <$> Items q1 /\
    IsWindowClosed <$> Items q2 = IsWindowClosed <$> Items q1.
Proof.
  intros Hsize Hq1.
  assert (Hin : time ∈ (timestamp <$> Items q1)).
  { destruct (UpdateCount_timestamps q q1 time r Hq1) as [[Hin ->] | [_ ->]];
      [done|]. cbv zeta. rewrite length_app. simpl.
    destruct (Nat.ltb_spec (size q) (length (timestamp <$> Items q) + 1)).
    - destruct (timestamp <$> Items q) as [|t ts]; [simpl in *; lia|].
      simpl. rewrite drop_0. apply elem_of_app. right.
      by apply list_elem_of_singleton.
    - apply elem_of_app. right. by apply list_elem_of_singleton. }
  split; [exact Hin|].
  apply list_elem_of_fmap in Hin as (b & Hb & Hbin).
  unfold UpdateCount.
  destruct (list_find (fun i => timestamp i = time) (Items q1)) as [[k b']|] eqn:Hfind.
  - apply list_find_Some in Hfind as (Hk & _ & _).
    eexists. split; [reflexivity|]. cbn [Items elements withItems].
    rewrite !list_fmap_insert. split.
    + apply list_insert_id. by rewrite list_lookup_fmap, Hk.
    + apply list_insert_id. by rewrite list_lookup_fmap, Hk.
  - apply list_find_None in Hfind. rewrite Forall_forall in Hfind.
    by destruct (Hfind b Hbin).
Qed.

Lemma sameRateData_refl (l : History) : Forall2 sameRateData l l.
Proof. apply Forall_Forall2_diag, Forall_forall. by intros b _. Qed.

(** X13: a report for a timestamp that has its bucket changes no rate: after
    [UpdateCount] on a timestamp present in the history, [CalculateRate] may
    return the values it might return before, for every partition, lookback
    window and [now].  (The report only enters the cumulative counts of the
    bucket, which the rate query does not read.) *)
Theorem UpdateCount_existing_keeps_rate (q q' : Queue) (time : Z) (r : PodReadCount)
    (now lookbackSeconds : Z) (partitionName vertexName : string) :
  time ∈ (timestamp <$> Items q) -> UpdateCount q time r = Some q' ->
  forall rate,
    CalculateRate_may q' now lookbackSeconds partitionName vertexName rate <->
    CalculateRate_may q now lookbackSeconds partitionName vertexName rate.
Proof.
  intros Hin Hq' rate.
  assert (Hsame : Forall2 sameRateView (Items q) (Items q')).
  { apply list_elem_of_fmap in Hin as (b & Hb & Hbin).
    unfold UpdateCount in Hq'.
    destruct (list_find (fun i => timestamp i = time) (Items q))
      as [[k b']|] eqn:Hfind.
    - apply list_find_Some in Hfind as (Hk & _ & _). simplify_eq.
      cbn [Items elements withItems].
      rewrite <- (list_insert_id (elements q) k b' Hk) at 1.
      apply Forall2_insert; [|done].
      apply Forall_Forall2_diag, Forall_forall. by intros c _.
    - apply list_find_None in Hfind. rewrite Forall_forall in Hfind.
      by destruct (Hfind b Hbin). }
  split.
  - by apply sameRateView_CalculateRate_may, sameRateView_sym.
  - by apply sameRateView_CalculateRate_may.
Qed.

(** ** A lookback window that covers the history *)

(** X15: when every bucket up to the second-to-last one is closed and within
    the lookback window, the backward scan runs to the head of the history:
    the start index is 0. *)
Theorem findStartIndex_full_window (now lookbackSeconds : Z) (counts : History) :
  (2 <= length counts)%nat ->
  (forall i b, (i <= length counts - 2)%nat -> counts !! i = Some b ->
               usable now lookbackSeconds b) ->
  findStartIndex now lookbackSeconds counts = Some 0.
Proof.
  intros Hn Hall.
  destruct (lookup_lt_is_Some_2 counts (length counts - 2) ltac:(lia)) as [c Hc].
  rewrite (findStartIndex_unfold _ _ _ c Hn Hc).
  destruct (Hall _ _ ltac:(reflexivity) Hc) as [Hage _]. unfold withinLookback in Hage.
  destruct (Z.ltb_spec lookbackSeconds (Int64.sub now (timestamp c))); [lia|].
  destruct (findStartIndex_loop_spec now lookbackSeconds counts
              (length counts - 1) (Z.of_nat (length counts - 2)) ltac:(lia))
    as (s & Hs & Hspec).
  rewrite Hs. f_equal.
  destruct Hspec as [[_ Hstop] | (i & -> & Hi & _ & Hstop)].
  - exfalso. destruct Hstop as [Hk | (i & b & Hk & Hb & Hnot)]; [lia|].
    apply Hnot, (Hall i b); [lia|done].
  - destruct Hstop as [-> | (i' & b & -> & Hb & Hnot)]; [done|].
    exfalso. apply Hnot, (Hall i' b); [lia|done].
Qed.

(** ** Moving the time axis *)

Lemma Int64_wrap_mod (z : Z) : Int64.wrap z mod Int64.modulus = z mod Int64.modulus.
Proof.
  unfold Int64.wrap.
  rewrite Z.add_mod, Z.mod_mod, <- Z.add_mod by (unfold Int64.modulus; lia).
  f_equal. lia.
Qed.

Lemma Int64_wrap_eq (a b : Z) :
  a mod Int64.modulus = b mod Int64.modulus -> Int64.wrap a = Int64.wrap b.
Proof.
  intros H. unfold Int64.wrap. f_equal.
  rewrite (Zminus_mod a), (Zminus_mod b), H. reflexivity.
Qed.

Lemma Int64_sub_shift (a b d : Z) :
  Int64.sub (add64 a d) (add64 b d) = Int64.sub a b.
Proof.
  unfold Int64.sub, add64. apply Int64_wrap_eq.
  rewrite Zminus_mod, !Int64_wrap_mod, <- Zminus_mod. f_equal. lia.
Qed.

Lemma shift_lookup (d : Z) (l : History) (i : nat) :
  (shiftBucket d <$> l) !! i = shiftBucket d <$> l !! i.
Proof. apply list_lookup_fmap. Qed.

Lemma shift_index (d : Z) (l : History) (i : Z) :
  index (shiftBucket d <$> l) i = shiftBucket d <$> index l i.
Proof. unfold index. destruct (i <? 0); [done|]. apply list_lookup_fmap. Qed.

Lemma shift_findStartIndex_loop (d now lookbackSeconds : Z) (l : History)
    (k : nat) (s0 : Z) :
  findStartIndex_loop (add64 now d) lookbackSeconds (shiftBucket d <$> l) k s0
  = findStartIndex_loop now lookbackSeconds l k s0.
Proof.
  revert s0. induction k as [|i IH]; intros s0; [done|].
  cbn [findStartIndex_loop]. rewrite shift_lookup.
  destruct (l !! i) as [c|]; [|done]. cbn [fmap option_fmap option_map mbind option_bind].
  cbn [shiftBucket timestamp IsWindowClosed isWindowClosed].
  rewrite Int64_sub_shift. destruct (_ && _); [apply IH|done].
Qed.

Lemma shift_findEndIndex (d : Z) (l : History) :
  findEndIndex (shiftBucket d <$> l) = findEndIndex l.
Proof.
  unfold findEndIndex. rewrite length_fmap.
  induction (length l) as [|i IH]; [done|].
  cbn [findEndIndex_loop]. rewrite shift_lookup.
  destruct (l !! i) as [c|]; [|done]. cbn [fmap option_fmap option_map mbind option_bind].
  change (IsWindowClosed (shiftBucket d c)) with (IsWindowClosed c).
  by destruct (IsWindowClosed c).
Qed.

Lemma shift_sumDeltas (d : Z) (l : History) (partitionName : string)
    (fuel : nat) (i : Z) (delta : float64) :
  sumDeltas (shiftBucket d <$> l) partitionName fuel i delta
  = sumDeltas l partitionName fuel i delta.
Proof.
  revert i delta. induction fuel as [|fuel IH]; intros i delta; [done|].
  cbn [sumDeltas]. rewrite shift_index.
  destruct (index l (i + 1)) as [c|]; [|done].
  cbn [fmap option_fmap option_map mbind option_bind]. apply IH.
Qed.

(** With the orders of iteration fixed, moving [now] and every timestamp by
    the same number of seconds leaves the rate unchanged. *)
Lemma shift_CalculateRate (d : Z) (q : Queue) (now lookbackSeconds : Z)
    (partitionName vertexName : string) :
  CalculateRate (shiftQueue d q) (add64 now d) lookbackSeconds partitionName vertexName
  = CalculateRate q now lookbackSeconds partitionName vertexName.
Proof.
  unfold CalculateRate. f_equal. rewrite !CalculateRate_exit_unfold.
  unfold Items. cbn [elements shiftQueue]. rewrite length_fmap.
  destruct (_ <=? 1)%nat; [done|].
  rewrite shift_findEndIndex.
  assert (Hstart : findStartIndex (add64 now d) lookbackSeconds
                     (shiftBucket d <$> elements q)
                   = findStartIndex now lookbackSeconds (elements q)).
  { unfold findStartIndex. rewrite length_fmap. destruct (_ <? 2); [done|].
    rewrite shift_index. destruct (index (elements q) _) as [c|]; [|done].
    cbn [fmap option_fmap option_map mbind option_bind shiftBucket timestamp].
    rewrite Int64_sub_shift. destruct (_ <? _); [done|].
    apply shift_findStartIndex_loop. }
  rewrite Hstart. clear Hstart.
  destruct (findStartIndex _ _ _) as [s|]; [|reflexivity].
  destruct (findEndIndex _) as [e|]; [|reflexivity]. cbn [mbind option_bind].
  unfold rateAfterSearch. destruct (_ || _); [done|].
  rewrite !shift_index.
  destruct (index (elements q) e) as [ce|]; [|done].
  destruct (index (elements q) s) as [cs|]; [|done].
  cbn [fmap option_fmap option_map mbind option_bind shiftBucket timestamp].
  rewrite Int64_sub_shift. destruct (_ =? 0); [done|].
  by rewrite shift_sumDeltas.
Qed.

Lemma shift_zip_visitedAs (d : Z) (orders : list PodPartitionCounts) (l : History) :
  zip_with visitedAs orders (shiftBucket d <$> l)
  = shiftBucket d <$> zip_with visitedAs orders l.
Proof.
  revert l. induction orders as [|o orders IH]; intros [|b l]; try done.
  cbn [fmap list_fmap zip_with]. f_equal. apply IH.
Qed.

Lemma shift_orders (d : Z) (l : History) (orders : list PodPartitionCounts) :
  Forall2 (fun b o => rangeOrder (PodDeltaCountSnapshot b) o) (shiftBucket d <$> l) orders
  <-> Forall2 (fun b o => rangeOrder (PodDeltaCountSnapshot b) o) l orders.
Proof. by rewrite Forall2_fmap_l. Qed.

(** X16: the rate depends on time through differences only: moving [now] and
    the timestamp of every bucket by the same number of seconds, with the
    wrap-around of [int64] addition, leaves the values [CalculateRate] may
    return unchanged. *)
Theorem CalculateRate_shift (d : Z) (q : Queue) (now lookbackSeconds : Z)
    (partitionName vertexName : string) (rate : float64) :
  CalculateRate_may (shiftQueue d q) (add64 now d) lookbackSeconds
    partitionName vertexName rate
  <-> CalculateRate_may q now lookbackSeconds partitionName vertexName rate.
Proof.
  assert (Hin : forall orders,
            CalculateRate_in orders (shiftQueue d q) (add64 now d) lookbackSeconds
              partitionName vertexName
            = CalculateRate_in orders q now lookbackSeconds partitionName vertexName).
  { intros orders. unfold CalculateRate_in.
    rewrite <- (shift_CalculateRate d (withItems q (zip_with visitedAs orders (Items q)))).
    unfold shiftQueue, withItems, Items. cbn [elements size].
    by rewrite shift_zip_visitedAs. }
  split; intros (orders & Ho & Hrate); exists orders.
  - split; [by apply (shift_orders d)|]. by rewrite <- Hin.
  - split; [by apply (shift_orders d)|]. by rewrite Hin.
Qed.

(** ** The further properties at work on the example *)

Lemma threeBuckets_allButLastClosed : allButLastClosed (Items threeBuckets).
Proof.
  intros i b Hi Hb. simpl in Hi.
  destruct i as [|[|i]]; simpl in Hb.
  - injection Hb as <-. reflexivity.
  - injection Hb as <-. reflexivity.
  - lia.
Defined.

Lemma threeBuckets_NoDup : NoDup (timestamp <$> Items threeBuckets).
Proof.
  apply (bool_decide_unpack _). vm_compute. reflexivity.
Defined.

Lemma findStartIndex_lookback_mono_witness :
  exists s', findStartIndex 120 20 (Items threeBuckets) = Some s' /\ 0 <= s' <= 1.
Proof.
  apply (findStartIndex_lookback_mono 120 10 20 (Items threeBuckets) 1).
  - lia.
  - vm_compute. reflexivity.
  - unfold IndexNotFound. lia.
Defined.

Lemma calculatePartitionDelta_unknown_witness :
  calculatePartitionDelta bucket110 "p2" = Float64.zero.
Proof.
  apply (calculatePartitionDelta_unknown bucket110 "p2").
  constructor; [|constructor]. constructor; [|constructor]. discriminate.
Defined.

Lemma CalculateRate_unknown_partition_witness :
  exists rate,
    CalculateRate threeBuckets 120 20 "p2" "vertex" = Some rate /\
    Float64.eqb rate Float64.zero = true.
Proof.
  apply (CalculateRate_unknown_partition threeBuckets 120 20 "p2" "vertex").
  constructor; [|constructor; [|constructor; [|constructor]]].
  - constructor; [|constructor]. constructor; [|constructor]. discriminate.
  - constructor; [|constructor]. constructor; [|constructor]. discriminate.
  - constructor.
Defined.

Lemma CalculateRate_two_buckets_witness :
  CalculateRate twoBuckets 110 20 "p1" "vertex" = Some Float64.zero.
Proof.
  apply (CalculateRate_two_buckets twoBuckets 110 20 "p1" "vertex" bucket100
           (Update (report "pod-0" "p1" f15) (NewTimestampedCounts 110))).
  - reflexivity.
  - reflexivity.
Defined.

Lemma findEndIndex_after_start_witness :
  exists e,
    findEndIndex (Items threeBuckets) = Some e /\
    Z.of_nat (length (Items threeBuckets)) - 2 <= e
      < Z.of_nat (length (Items threeBuckets)) /\
    0 <= e.
Proof.
  apply (findEndIndex_after_start 120 20 (Items threeBuckets) 0).
  - exact threeBuckets_allButLastClosed.
  - simpl. lia.
  - vm_compute. reflexivity.
Defined.

Lemma CalculateRate_ignores_open_last_witness :
  CalculateRate_may
    {| elements := [bucket100; bucket110] ++ [NewTimestampedCounts 130]; size := 3 |}
    120 20 "p1" "vertex" (Float64.of_int 1).
Proof.
  apply (CalculateRate_ignores_open_last 100 3 [bucket100; bucket110]
           bucket120 (NewTimestampedCounts 130) 120 20 "p1" "vertex").
  - reflexivity.
  - reflexivity.
  - apply CalculateRate_may_intro. vm_compute. reflexivity.
Defined.

(** Two histories whose bucket of 110 lists the same three pods in two
    orders: a value the one may return, the other may return. *)
Lemma CalculateRate_reads_rate_data_witness :
  exists rate,
    CalculateRate threePods 120 20 "p1" "vertex" = Some rate /\
    CalculateRate_may threePods' 120 20 "p1" "vertex" rate.
Proof.
  eexists. split; [vm_compute; reflexivity|].
  apply (CalculateRate_reads_rate_data threePods threePods' 120 20 "p1" "vertex").
  - constructor; [|constructor; [|constructor; [|constructor]]].
    + split; [reflexivity|]. split; reflexivity.
    + split; [reflexivity|]. split; [reflexivity|].
      cbn [PodDeltaCountSnapshot podPartitionDelta bucket110pods bucket110pods'].
      etransitivity; [apply perm_swap|]. apply perm_skip, perm_swap.
    + split; [reflexivity|]. split; reflexivity.
  - apply CalculateRate_may_intro. vm_compute. reflexivity.
Defined.

Lemma CalculateRate_zero_time_diff_witness :
  exists delta timeDiff,
    CalculateRate_exit threeBuckets 120 20 "p1"
      = Some (ExitQuotient 0 1 delta timeDiff) /\ timeDiff <> 0.
Proof.
  apply (proj2 (CalculateRate_zero_time_diff threeBuckets 120 20 "p1" 0 1
                  ltac:(repeat (constructor; [vm_compute; split; discriminate|]);
                        constructor)
                  threeBuckets_NoDup
                  ltac:(vm_compute; reflexivity)
                  ltac:(reflexivity)
                  ltac:(unfold IndexNotFound; lia)
                  ltac:(unfold IndexNotFound; lia))).
  lia.
Defined.

Lemma UpdateCount_NoDup_witness :
  exists q',
    UpdateCount threeBuckets 130 (report "pod-0" "p1" f30) = Some q' /\
    NoDup (timestamp <$> Items q').
Proof.
  eexists. split; [reflexivity|].
  eapply (UpdateCount_NoDup threeBuckets _ 130 (report "pod-0" "p1" f30)).
  - exact threeBuckets_NoDup.
  - reflexivity.
Defined.

Lemma UpdateCount_same_timestamp_witness :
  exists q1 q2,
    UpdateCount (emptyQueue 100) 100 (report "pod-0" "p1" f5) = Some q1 /\
    UpdateCount q1 100 (report "pod-1" "p1" f15) = Some q2 /\
    timestamp <$> Items q2 = timestamp <$> Items q1.
Proof.
  exists (withItems (emptyQueue 100)
            [Update (report "pod-0" "p1" f5) (NewTimestampedCounts 100)]).
  destruct (UpdateCount_same_timestamp (emptyQueue 100)
              (withItems (emptyQueue 100)
                 [Update (report "pod-0" "p1" f5) (NewTimestampedCounts 100)])
              100 (report "pod-0" "p1" f5) (report "pod-1" "p1" f15))
    as (_ & q2 & Hq2 & Hts & _).
  - simpl. lia.
  - reflexivity.
  - exists q2. split; [reflexivity|]. split; [exact Hq2|exact Hts].
Defined.

Lemma UpdateCount_existing_keeps_rate_witness :
  exists q',
    UpdateCount threeBuckets 110 (report "pod-1" "p1" f30) = Some q' /\
    CalculateRate_may q' 120 20 "p1" "vertex" (Float64.of_int 1).
Proof.
  eexists. split; [reflexivity|].
  apply (UpdateCount_existing_keeps_rate threeBuckets _ 110
           (report "pod-1" "p1" f30) 120 20 "p1" "vertex").
  - apply list_elem_of_fmap. exists bucket110. split; [reflexivity|].
    apply list_elem_of_further, list_elem_of_here.
  - reflexivity.
  - apply CalculateRate_may_intro. vm_compute. reflexivity.
Defined.

Lemma UpdateCount_allButLastClosed_witness :
  exists q',
    UpdateCount threeBuckets 130 (report "pod-0" "p1" f30) = Some q' /\
    allButLastClosed (Items q').
Proof.
  eexists. split; [reflexivity|].
  eapply (UpdateCount_allButLastClosed threeBuckets _ 130 (report "pod-0" "p1" f30)).
  - exact threeBuckets_allButLastClosed.
  - reflexivity.
Defined.

Lemma findStartIndex_full_window_witness :
  findStartIndex 120 20 (Items threeBuckets) = Some 0.
Proof.
  apply (findStartIndex_full_window 120 20 (Items threeBuckets)).
  - simpl. lia.
  - intros i b Hi Hb. simpl in Hi.
    destruct i as [|[|i]]; simpl in Hb.
    + injection Hb as <-. split; [vm_compute; discriminate|reflexivity].
    + injection Hb as <-. split; [vm_compute; discriminate|reflexivity].
    + lia.
Defined.
